(** * PDF-Downloader.py: a shallow embedding and its properties

    The program reads a spreadsheet of reports, prunes the reports whose PDF is
    already in the download directory, downloads at most [MAX_DOWNLOADS] of the
    others on worker threads (at most [MAX_CONCURRENT_THREADS] alive at once),
    and then writes a status report and updates a metadata table.

    Modelling choices, in the order of the source file:
    - identifiers (the values of the [BRnum] index) are strings, so [str(idx)]
      is the identity; an identifier holds no path separator, so that
      [os.path.join(DOWNLOAD_DIR, f"{index}.pdf")] names the entry
      [index +:+ ".pdf"] of the download directory;
    - the download directory is a finite map from entry names to contents;
    - a pandas [DataFrame] is a list of column names and a list of rows, a
      row holding one cell per column; a spreadsheet on disk holds the frame
      that was written to it, and reading it gives that frame back;
    - the network and the disk are an oracle that says how each fetch ends;
    - worker threads are sequences of atomic effects that interleave;
    - the data directories exist, and writing a spreadsheet succeeds;
    - [upload_to_drive] reads the download directory and changes nothing of
      what is modelled here, so it is left out. *)

From Stdlib Require Import Ascii.
From stdpp Require Import base strings list gmap relations.

#[local] Set Warnings "-clear-no-such-hyp".

(** ** Configuration constants *)

Definition ID_COLUMN : string := "BRnum".
Definition MAX_DOWNLOADS : nat := 10.
Definition MAX_CONCURRENT_THREADS : nat := 5.

(** ** Cells, rows and frames *)

(** A spreadsheet cell: empty ([NaN] in pandas) or a value. *)
Inductive cell : Type :=
  | NaN
  | Text (s : string).

Global Instance cell_eq_dec : EqDecision cell.
Proof. solve_decision. Defined.

(** [pd.notna] / [notnull]. *)
Definition notna (c : cell) : bool :=
  match c with NaN => false | Text _ => true end.

(** A Python [dict] with string keys: insertion-ordered, a key occurs once. *)
Definition dict_get (k : string) (d : list (string * cell)) : option cell :=
  snd <$> find (λ kv, bool_decide (kv.1 = k)) d.

(** [d[k] = v]: overwrite in place, or add at the end. *)
Fixpoint dict_set (k : string) (v : cell) (d : list (string * cell))
  : list (string * cell) :=
  match d with
  | [] => [(k, v)]
  | (k', v') :: d' =>
      if bool_decide (k' = k) then (k, v) :: d' else (k', v') :: dict_set k v d'
  end.

(** The cell of a row under a column; a column the row lacks reads as NaN. *)
Definition field (col : string) (r : list (string * cell)) : cell :=
  default NaN (dict_get col r).

(** A frame with the default integer index ([ignore_index=True],
    [index=False] on writing). *)
Record DataFrame : Type := mkDataFrame {
  columns : list string;
  rows : list (list (string * cell))
}.

Global Instance DataFrame_eq_dec : EqDecision DataFrame.
Proof. solve_decision. Defined.

(** [reports_data]: read with [index_col=ID_COLUMN], so every row carries its
    identifier as index label, and [BRnum] is not among the columns. *)
Record Reports : Type := mkReports {
  r_columns : list string;
  r_rows : list (string * list (string * cell))
}.

(** [df.index] *)
Definition r_index (df : Reports) : list string := (r_rows df).*1.

(** [len(df)] *)
Definition r_len (df : Reports) : nat := length (r_rows df).

(** A row laid out on the columns [cols]: one cell per column, in order. *)
Definition reindex (cols : list string) (r : list (string * cell))
  : list (string * cell) :=
  (λ c, (c, field c r)) <$> cols.

(** Add to [acc] the names of [ks] it lacks, in their order. *)
Definition extend_columns (acc ks : list string) : list string :=
  foldl (λ a k, if bool_decide (k ∈ a) then a else a ++ [k]) acc ks.

(** [pd.DataFrame(records)] for a list of dicts: the columns are the keys in
    order of first appearance, a key a record lacks is NaN there. *)
Definition DataFrame_of_records (records : list (list (string * cell)))
  : DataFrame :=
  let cols := foldl (λ acc r, extend_columns acc (r.*1)) [] records in
  mkDataFrame cols (reindex cols <$> records).

(** [pd.concat([a, b], ignore_index=True)]: outer join on the columns. *)
Definition concat (a b : DataFrame) : DataFrame :=
  let cols := extend_columns (columns a) (columns b) in
  mkDataFrame cols (reindex cols <$> (rows a ++ rows b)).

(** Rows of [l] whose cell under [col] does not occur in a later row. *)
Fixpoint keep_last (col : string) (l : list (list (string * cell)))
  : list (list (string * cell)) :=
  match l with
  | [] => []
  | r :: rest =>
      if bool_decide (field col r ∈ field col <$> rest)
      then keep_last col rest
      else r :: keep_last col rest
  end.

(** [df.drop_duplicates(subset=[col], keep="last")]; [None] is the
    [KeyError] pandas raises when the frame has no such column. *)
Definition drop_duplicates (col : string) (df : DataFrame) : option DataFrame :=
  if bool_decide (col ∈ columns df)
  then Some (mkDataFrame (columns df) (keep_last col (rows df)))
  else None.

(** A spreadsheet file on disk. *)
Inductive file (A : Type) : Type :=
  | Missing
  | Unreadable
  | Stored (a : A).
Arguments Missing {A}.
Arguments Unreadable {A}.
Arguments Stored {A} a.

(** ** The download directory and [get_existing_downloads] *)

(** [f"{index}.pdf"] *)
Definition pdf_name (index : string) : string := index +:+ ".pdf".

(** [os.path.exists(os.path.join(DOWNLOAD_DIR, f"{index}.pdf"))] *)
Definition pdf_exists (dir : gmap string string) (index : string) : bool :=
  bool_decide (is_Some (dir !! pdf_name index)).

(** [glob] never lets [*] match a leading dot. *)
Definition is_hidden (name : string) : bool :=
  match name with
  | String "."%char _ => true
  | _ => false
  end.

(** [fnmatch] of the name against [*.pdf], case-sensitive as on POSIX: the
    name ends in [.pdf], that is, one of its suffixes is [.pdf]. *)
Fixpoint ends_with_pdf (name : string) : bool :=
  match name with
  | "" => false
  | String _ rest => bool_decide (name = ".pdf") || ends_with_pdf rest
  end.

(** [glob.glob(os.path.join(DOWNLOAD_DIR, "*.pdf"))], as base names. *)
Definition glob_pdf (dir : gmap string string) : list string :=
  filter (λ name, is_hidden name = false ∧ ends_with_pdf name = true)
         (elements (dom dir)).

(** [s[:-4]] *)
Definition drop_last4 (s : string) : string :=
  String.substring 0 (String.length s - 4) s.

Definition get_existing_downloads (dir : gmap string string) : list string :=
  drop_last4 <$> glob_pdf dir.

(** An identifier whose file [glob]'s [*.pdf] can list: it is not empty and
    does not begin with a dot. *)
Definition listable (index : string) : bool :=
  match index with
  | "" => false
  | String "."%char _ => false
  | _ => true
  end.

(** ** [download_file] *)

(** How one fetch ends, as the network and the disk decide it:
    - [RequestError]: [requests.get] or [raise_for_status] raised a
      [RequestException];
    - [OtherError]: another exception was raised before the file was opened;
    - [WriteError]: [open] succeeded, and [f.write] raised once [written] was
      in the file;
    - [Fetched]: the body arrived and was written in full. *)
Inductive fetch_result : Type :=
  | RequestError (e : string)
  | OtherError (e : string)
  | WriteError (written e : string)
  | Fetched (content : string).

(** The atomic effects of a worker on the state it shares with the others:
    - [OpenFile]: [open(file_path, 'wb')] creates or truncates the file;
    - [WriteFile]: what [f.write] left in the file;
    - [AppendError]: [download_errors.append(entry)]. *)
Inductive effect : Type :=
  | OpenFile (name : string)
  | WriteFile (name data : string)
  | AppendError (entry : string).

(** The URL the worker fetches: [Pdf_URL] when it is not null. *)
Definition choose_url (row : list (string * cell)) : cell :=
  if notna (field "Pdf_URL" row) then field "Pdf_URL" row
  else field "Report Html Address" row.

(** The effects of [download_file(index, row, download_errors)], in program
    order, and the final value of its [success] flag. *)
Definition download_file (oracle : string → cell → fetch_result)
    (index : string) (row : list (string * cell)) : list effect * bool :=
  match oracle index (choose_url row) with
  | RequestError e =>
      ([AppendError index; AppendError ("Network error: " +:+ e)], false)
  | OtherError e =>
      ([AppendError index; AppendError ("Unexpected error: " +:+ e)], false)
  | WriteError written e =>
      ([OpenFile (pdf_name index); WriteFile (pdf_name index) written;
        AppendError index; AppendError ("Unexpected error: " +:+ e)], false)
  | Fetched content =>
      ([OpenFile (pdf_name index); WriteFile (pdf_name index) content], true)
  end.

(** One effect on the download directory and on [download_errors]. *)
Definition apply_effect (eff : effect)
    (st : gmap string string * list string) : gmap string string * list string :=
  match eff with
  | OpenFile name => (<[name := ""]> st.1, st.2)
  | WriteFile name data => (<[name := data]> st.1, st.2)
  | AppendError entry => (st.1, st.2 ++ [entry])
  end.

(** A worker running alone, from start to end. *)
Definition run_effects (effs : list effect)
    (st : gmap string string * list string) : gmap string string * list string :=
  foldl (λ s eff, apply_effect eff s) st effs.

(** ** [download_pdfs]: the controller and its worker threads *)

(** Where the controller stands: at the top of the [for] loop, at the
    [while ... >= MAX_CONCURRENT_THREADS] test, in the final
    [while active_threads > 0] loop, or past it. *)
Inductive control : Type :=
  | AtDispatch
  | AtPoll
  | AtJoin
  | AtDone.

(** A started thread: what it still has to do, [None] once it has ended. *)
Record thread : Type := mkThread {
  t_name : string;
  t_todo : option (list effect)
}.

Definition is_alive (t : thread) : bool :=
  match t_todo t with Some _ => true | None => false end.

(** [sum(1 for t in threads if t.is_alive())] *)
Definition alive_count (ts : list thread) : nat :=
  length (filter (λ t, is_alive t = true) ts).

Record orch : Type := mkOrch {
  pending : list (string * list (string * cell));
  threads : list thread;
  shared : gmap string string * list string;
  pc : control
}.

Section Orchestrator.
(** The concurrency bound and the environment. *)
Variable C : nat.
Variable oracle : string → cell → fetch_result.

(** [thread.start()] for the next row of the queue. *)
Inductive spawn : orch → orch → Prop :=
  | spawn_next index row rest ts sh :
      spawn (mkOrch ((index, row) :: rest) ts sh AtDispatch)
            (mkOrch rest
               (ts ++ [mkThread index (Some (download_file oracle index row).1)])
               sh AtPoll).

(** The controller's own moves. A count [n] it reads is at least the number
    of threads alive when it acts on it: threads only end while it counts. *)
Inductive controller : orch → orch → Prop :=
  | poll_wait q ts sh n :
      alive_count ts ≤ n → n ≤ length ts → C ≤ n →
      controller (mkOrch q ts sh AtPoll) (mkOrch q ts sh AtPoll)
  | poll_pass q ts sh n :
      alive_count ts ≤ n → n < C →
      controller (mkOrch q ts sh AtPoll) (mkOrch q ts sh AtDispatch)
  | loop_exit ts sh :
      controller (mkOrch [] ts sh AtDispatch) (mkOrch [] ts sh AtJoin)
  | join_wait q ts sh n :
      alive_count ts ≤ n → n ≤ length ts → 0 < n →
      controller (mkOrch q ts sh AtJoin) (mkOrch q ts sh AtJoin)
  | join_done q ts sh :
      alive_count ts ≤ 0 →
      controller (mkOrch q ts sh AtJoin) (mkOrch q ts sh AtDone).

(** A live thread performs its next effect, or ends. *)
Inductive worker : orch → orch → Prop :=
  | worker_effect q ts1 name eff todo ts2 sh p :
      worker (mkOrch q (ts1 ++ mkThread name (Some (eff :: todo)) :: ts2) sh p)
             (mkOrch q (ts1 ++ mkThread name (Some todo) :: ts2)
                (apply_effect eff sh) p)
  | worker_exit q ts1 name ts2 sh p :
      worker (mkOrch q (ts1 ++ mkThread name (Some []) :: ts2) sh p)
             (mkOrch q (ts1 ++ mkThread name None :: ts2) sh p).

Definition step (s s' : orch) : Prop :=
  spawn s s' ∨ controller s s' ∨ worker s s'.

(** The state in which [download_pdfs] enters its [for] loop. *)
Definition start (queue : list (string * list (string * cell)))
    (dir : gmap string string) (download_errors : list string) : orch :=
  mkOrch queue [] (dir, download_errors) AtDispatch.

(** [download_pdfs(download_queue, download_errors)] returns with the
    directory [dir'] and the list [errors']. *)
Definition download_pdfs (queue : list (string * list (string * cell)))
    (dir : gmap string string) (download_errors : list string)
    (dir' : gmap string string) (errors' : list string) : Prop :=
  ∃ ts, rtc step (start queue dir download_errors)
                 (mkOrch [] ts (dir', errors') AtDone).
End Orchestrator.

(** ** [create_output_report] *)

(** [l.index(x)] *)
Fixpoint index_of (x : string) (l : list string) : option nat :=
  match l with
  | [] => None
  | y :: l' => if bool_decide (y = x) then Some 0 else S <$> index_of x l'
  end.

(** The [else] branch of the loop body: the entry that follows the first
    occurrence of [index] in [download_errors]. *)
Definition error_message (index : string) (download_errors : list string)
  : string :=
  if bool_decide (index ∈ download_errors) then
    match index_of index download_errors with
    | Some error_idx =>
        if bool_decide (error_idx + 1 < length download_errors)
        then default "" (download_errors !! (error_idx + 1))
        else ""
    | None => ""
    end
  else "File not found".

Definition status_row (index status error_msg : string)
  : list (string * cell) :=
  [("Report ID", Text index); ("Status", Text status);
   ("Error Message", Text error_msg)].

(** One pass of the loop over [download_queue.iterrows()]. *)
Definition output_row (dir : gmap string string) (download_errors : list string)
    (index : string) : list (string * cell) :=
  if pdf_exists dir index then status_row index "Downloaded" ""
  else status_row index "Failed" (error_message index download_errors).

Definition new_output_df (download_queue : Reports)
    (download_errors : list string) (dir : gmap string string) : DataFrame :=
  mkDataFrame ["Report ID"; "Status"; "Error Message"]
              (output_row dir download_errors <$> r_index download_queue).

(** The frame [create_output_report] writes to [Download_Status.xlsx], given
    what that file held. *)
Definition create_output_report (download_queue : Reports)
    (download_errors : list string) (dir : gmap string string)
    (output_file : file DataFrame) : DataFrame :=
  let new_df := new_output_df download_queue download_errors dir in
  match output_file with
  | Stored existing_df =>
      match drop_duplicates "Report ID" (concat existing_df new_df) with
      | Some output_df => output_df
      | None => new_df
      end
  | Unreadable => new_df
  | Missing => new_df
  end.

(** ** [update_metadata] *)

(** [reports_data.loc[report_id, col]] when the label occurs once in the
    index: the cell of its row. For a label that occurs more than once pandas
    returns a [Series] of the cells of all its rows, which is not a cell; the
    statements about the cells that [update_metadata] copies are therefore
    made for a source table without repeated labels, on which this is what
    [loc] returns. *)
Definition loc (reports_data : Reports) (report_id col : string) : cell :=
  match find (λ r, bool_decide (r.1 = report_id)) (r_rows reports_data) with
  | Some r => field col r.2
  | None => NaN
  end.

(** The body of the inner loop over [reports_data.columns]. *)
Definition copy_column (metadata_columns : list string)
    (reports_data : Reports) (report_id : string)
    (new_record : list (string * cell)) (col : string)
  : list (string * cell) :=
  if bool_decide (col ∈ metadata_columns
                  ∧ col ∉ [ID_COLUMN; "pdf_downloaded"])
  then dict_set col (loc reports_data report_id col) new_record
  else new_record.

(** The body of the loop over [download_queue.index]. *)
Definition new_record (metadata_columns : list string) (reports_data : Reports)
    (downloaded_files : list string) (report_id : string)
  : list (string * cell) :=
  let status :=
    if bool_decide (report_id ∈ downloaded_files) then "Yes" else "No" in
  let record := [(ID_COLUMN, Text report_id); ("pdf_downloaded", Text status)] in
  if bool_decide (report_id ∈ r_index reports_data) then
    foldl (copy_column metadata_columns reports_data report_id)
          record (r_columns reports_data)
  else record.

Definition new_records (metadata_columns : list string)
    (download_queue reports_data : Reports) (dir : gmap string string)
  : list (list (string * cell)) :=
  new_record metadata_columns reports_data (get_existing_downloads dir)
    <$> r_index download_queue.

(** The frame the function starts from; [None] when [read_excel] raises. *)
Definition load_metadata (metadata_file : file DataFrame) : option DataFrame :=
  match metadata_file with
  | Missing => Some (mkDataFrame [ID_COLUMN; "pdf_downloaded"] [])
  | Stored df => Some df
  | Unreadable => None
  end.

(** What [update_metadata] writes: the backup, and the updated table. Either
    is [None] when an exception ends the function before that write. *)
Definition update_metadata (download_queue reports_data : Reports)
    (dir : gmap string string) (metadata_file : file DataFrame)
  : option DataFrame * option DataFrame :=
  match load_metadata metadata_file with
  | None => (None, None)
  | Some metadata_df =>
      let new_data :=
        DataFrame_of_records
          (new_records (columns metadata_df) download_queue reports_data dir) in
      let updated_metadata := concat metadata_df new_data in
      (Some metadata_df, drop_duplicates ID_COLUMN updated_metadata)
  end.

(** A file after an attempt to write it. *)
Definition after_write {A} (old : file A) (new : option A) : file A :=
  match new with Some a => Stored a | None => old end.

(** ** [main] *)

Record disk : Type := mkDisk {
  reports_file : file Reports;
  downloads : gmap string string;
  status_file : file DataFrame;
  metadata_file : file DataFrame;
  backup_file : file DataFrame
}.

Definition has_valid_url (r : string * list (string * cell)) : bool :=
  notna (field "Pdf_URL" r.2) || notna (field "Report Html Address" r.2).

(** [reports_data[has_valid_url]] *)
Definition valid_reports (reports_data : Reports) : Reports :=
  mkReports (r_columns reports_data)
            (filter (λ r, has_valid_url r = true) (r_rows reports_data)).

(** [df.loc[labels]]: for each label in turn, the rows that carry it. *)
Definition loc_labels (df : Reports) (labels : list string) : Reports :=
  mkReports (r_columns df)
            (flat_map (λ l, filter (λ r, r.1 = l) (r_rows df)) labels).

(** The queue [main] hands to the download and report phases. *)
Definition build_queue (reports_data : Reports) (dir : gmap string string)
  : Reports :=
  let existing_downloads := get_existing_downloads dir in
  let to_download :=
    filter (λ idx, idx ∉ existing_downloads) (r_index reports_data) in
  let download_queue := loc_labels reports_data to_download in
  if bool_decide (MAX_DOWNLOADS < r_len download_queue)
  then mkReports (r_columns download_queue)
                 (take MAX_DOWNLOADS (r_rows download_queue))
  else download_queue.

(** The download phase of [main]: skipped for an empty queue. *)
Definition download_phase (oracle : string → cell → fetch_result)
    (download_queue : Reports) (dir dir' : gmap string string)
    (errors' : list string) : Prop :=
  if bool_decide (0 < r_len download_queue)
  then download_pdfs MAX_CONCURRENT_THREADS oracle
         (r_rows download_queue) dir [] dir' errors'
  else dir' = dir ∧ errors' = [].

(** The report phase of [main]. *)
Definition report_phase (download_queue reports_data : Reports)
    (download_errors : list string) (dir' : gmap string string) (d : disk)
  : disk :=
  let meta := update_metadata download_queue reports_data dir' (metadata_file d) in
  mkDisk (reports_file d) dir'
    (Stored (create_output_report download_queue download_errors dir'
               (status_file d)))
    (after_write (metadata_file d) meta.2)
    (after_write (backup_file d) meta.1).

(** The two URL columns [main] reads by name. *)
Definition url_columns_present (df : Reports) : Prop :=
  "Pdf_URL" ∈ r_columns df ∧ "Report Html Address" ∈ r_columns df.

(** One run of [main] with its [__main__] handler, from disk to disk. *)
Inductive main (oracle : string → cell → fetch_result) : disk → disk → Prop :=
  | main_no_reports d :
      (∀ df, reports_file d ≠ Stored df) → main oracle d d
  | main_no_url_column d df :
      reports_file d = Stored df → ¬ url_columns_present df → main oracle d d
  | main_reports d df dir' errors' :
      reports_file d = Stored df → url_columns_present df →
      download_phase oracle (build_queue (valid_reports df) (downloads d))
        (downloads d) dir' errors' →
      main oracle d
        (report_phase (build_queue (valid_reports df) (downloads d))
           (valid_reports df) errors' dir' d).

(** ** Vocabulary of the statements *)

(** The identifier cells of a status table, row by row. *)
Definition report_ids (df : DataFrame) : list cell :=
  field "Report ID" <$> rows df.

(** The records a status table holds for an identifier. *)
Definition records_of (index : string) (df : DataFrame)
  : list (list (string * cell)) :=
  filter (λ r, field "Report ID" r = Text index) (rows df).

(** A frame as pandas holds it: every row is on exactly the columns of the
    frame. *)
Definition well_formed (df : DataFrame) : Prop :=
  ∀ r, r ∈ rows df → r.*1 = columns df.

(** [download_errors] when the two appends of each failed worker stay next
    to each other: identifier, then message. *)
Definition paired (entries : list (string * string)) : list string :=
  flat_map (λ e, [e.1; e.2]) entries.

(** What the controller of [download_pdfs] knows at its program points: at
    most [C] threads are alive, and fewer at the top of the [for] loop. *)
Definition within_bound (C : nat) (s : orch) : Prop :=
  alive_count (threads s) ≤ C
  ∧ (pc s = AtDispatch → alive_count (threads s) < C).

(** The metadata file after a call of [update_metadata]. *)
Definition metadata_after (download_queue reports_data : Reports)
    (dir : gmap string string) (metadata_file : file DataFrame)
  : file DataFrame :=
  after_write metadata_file
    (update_metadata download_queue reports_data dir metadata_file).2.

(** The schedule in which every worker runs to its end before the next one
    is started: the directory and the error list it leaves. *)
Definition run_in_turn (oracle : string → cell → fetch_result)
    (queue : list (string * list (string * cell)))
    (st : gmap string string * list string) : gmap string string * list string :=
  foldl (λ s item, run_effects (download_file oracle item.1 item.2).1 s)
        st queue.

(** The identifier and the message a worker appends when its fetch fails. *)
Definition failure_entry (oracle : string → cell → fetch_result)
    (item : string * list (string * cell)) : option (string * string) :=
  match oracle item.1 (choose_url item.2) with
  | RequestError e => Some (item.1, "Network error: " +:+ e)
  | OtherError e => Some (item.1, "Unexpected error: " +:+ e)
  | WriteError _ e => Some (item.1, "Unexpected error: " +:+ e)
  | Fetched _ => None
  end.

(** ** Vocabulary of the further properties *)

(** The entries a list of effects appends to [download_errors]. *)
Definition appends (effs : list effect) : list string :=
  omap (λ eff, match eff with AppendError entry => Some entry | _ => None end)
       effs.

(** The names of the files a list of effects opens or writes. *)
Definition written_names (effs : list effect) : list string :=
  omap (λ eff, match eff with
               | OpenFile name | WriteFile name _ => Some name
               | AppendError _ => None
               end)
       effs.

(** What the started threads still have to do, thread after thread. *)
Definition todo_effects (ts : list thread) : list effect :=
  flat_map (λ t, default [] (t_todo t)) ts.

(** The effects of the workers of a list of rows. *)
Definition effects_of (oracle : string → cell → fetch_result)
    (queue : list (string * list (string * cell))) : list effect :=
  flat_map (λ item, (download_file oracle item.1 item.2).1) queue.

(** The effects a state of [download_pdfs] still has before it: those of the
    started threads, then those of the rows not yet dispatched. *)
Definition remaining (oracle : string → cell → fetch_result) (s : orch)
  : list effect :=
  todo_effects (threads s) ++ effects_of oracle (pending s).

(** A fetch that got as far as opening the file. *)
Definition opens_file (r : fetch_result) : bool :=
  match r with
  | WriteError _ _ | Fetched _ => true
  | RequestError _ | OtherError _ => false
  end.

(** * Properties *)

(** ** File names *)

Lemma ends_with_pdf_name index : ends_with_pdf (pdf_name index) = true.
Proof.
  unfold pdf_name. induction index as [|a s IH]; [reflexivity|].
  change (String a s +:+ ".pdf") with (String a (s +:+ ".pdf")).
  cbn [ends_with_pdf]. rewrite IH. apply orb_true_r.
Qed.

Lemma drop_last4_pdf_name index : drop_last4 (pdf_name index) = index.
Proof.
  unfold drop_last4, pdf_name. induction index as [|a s IH]; [reflexivity|].
  change (String a s +:+ ".pdf") with (String a (s +:+ ".pdf")).
  assert (Hlen : ∀ t, String.length (t +:+ ".pdf") = String.length t + 4).
  { clear. induction t as [|b t IHt]; [reflexivity|].
    change (String b t +:+ ".pdf") with (String b (t +:+ ".pdf")).
    cbn [String.length]. rewrite IHt. reflexivity. }
  cbn [String.length]. rewrite Hlen in IH |- *.
  replace (S (String.length s + 4) - 4) with (S (String.length s)) by lia.
  replace (String.length s + 4 - 4) with (String.length s) in IH by lia.
  cbn [String.substring]. by rewrite IH.
Qed.

Lemma ends_with_pdf_inv name :
  ends_with_pdf name = true → pdf_name (drop_last4 name) = name.
Proof.
  intros H.
  assert (Hex : ∃ stem, name = pdf_name stem).
  { induction name as [|a s IH]; [discriminate|].
    cbn [ends_with_pdf] in H. apply orb_true_iff in H as [H|H].
    - apply bool_decide_eq_true in H. exists "". by rewrite H.
    - destruct (IH H) as [stem ->]. by exists (String a stem). }
  destruct Hex as [stem ->]. by rewrite drop_last4_pdf_name.
Qed.

Lemma is_hidden_pdf_name index :
  is_hidden (pdf_name index) = negb (listable index).
Proof. destruct index as [|a s]; [reflexivity|]. cbn. by repeat case_match. Qed.

Lemma pdf_exists_true dir index :
  pdf_exists dir index = true ↔ is_Some (dir !! pdf_name index).
Proof. unfold pdf_exists. by rewrite bool_decide_eq_true. Qed.

(** The scanner lists an identifier exactly when its file is in the directory
    and the pattern can see it. *)
Lemma elem_of_get_existing_downloads dir index :
  index ∈ get_existing_downloads dir ↔
  listable index = true ∧ pdf_exists dir index = true.
Proof.
  unfold get_existing_downloads, glob_pdf. rewrite pdf_exists_true.
  rewrite list_elem_of_fmap. split.
  - intros (name & -> & Hin). apply list_elem_of_filter in Hin as [[Hh He] Hin].
    apply elem_of_elements, elem_of_dom in Hin.
    apply ends_with_pdf_inv in He. rewrite He. split; [|done].
    rewrite <- He, is_hidden_pdf_name in Hh. by apply negb_false_iff in Hh.
  - intros [Hl Hs]. exists (pdf_name index). split.
    + by rewrite drop_last4_pdf_name.
    + apply list_elem_of_filter. split.
      * split; [|apply ends_with_pdf_name].
        rewrite is_hidden_pdf_name, Hl. reflexivity.
      * by apply elem_of_elements, elem_of_dom.
Qed.

(** ** Rows and columns *)

Lemma dict_get_reindex c cols r :
  dict_get c (reindex cols r) = if bool_decide (c ∈ cols) then Some (field c r) else None.
Proof.
  unfold reindex, dict_get. induction cols as [|c' cols IH]; [done|].
  cbn [fmap list_fmap find fst]. destruct (decide (c' = c)) as [->|Hne].
  - rewrite bool_decide_eq_true_2 by done.
    rewrite (bool_decide_eq_true_2 (c ∈ c :: cols)) by set_solver. done.
  - rewrite bool_decide_eq_false_2 by done. rewrite IH.
    destruct (decide (c ∈ cols)).
    + rewrite !bool_decide_eq_true_2 by set_solver. done.
    + rewrite !bool_decide_eq_false_2 by set_solver. done.
Qed.

Lemma field_reindex c cols r :
  field c (reindex cols r) = if bool_decide (c ∈ cols) then field c r else NaN.
Proof. unfold field at 1. rewrite dict_get_reindex. by case_bool_decide. Qed.

Lemma field_reindex_in c cols r : c ∈ cols → field c (reindex cols r) = field c r.
Proof. intros. rewrite field_reindex. by rewrite bool_decide_eq_true_2. Qed.

Lemma reindex_idemp cols r : reindex cols (reindex cols r) = reindex cols r.
Proof.
  unfold reindex at 1 3. apply list_fmap_ext. intros i c Hc.
  f_equal. apply field_reindex_in. by eapply list_elem_of_lookup_2.
Qed.

Lemma reindex_keys cols r : (reindex cols r).*1 = cols.
Proof.
  unfold reindex. rewrite <- list_fmap_compose. induction cols; [done|].
  cbn. by f_equal.
Qed.

(** A row that already has exactly the columns [cols] is left as it is. *)
Lemma reindex_id cols r : NoDup cols → r.*1 = cols → reindex cols r = r.
Proof.
  intros Hnd <-. unfold reindex. induction r as [|[k v] r IH]; [done|].
  cbn in Hnd |- *. apply NoDup_cons in Hnd as [Hk Hnd]. f_equal.
  - f_equal. unfold field, dict_get. cbn. by rewrite bool_decide_eq_true_2.
  - rewrite <- (IH Hnd) at 2. apply list_fmap_ext. intros i c Hc. f_equal.
    unfold field, dict_get. cbn. rewrite bool_decide_eq_false_2; [done|].
    intros ->. apply Hk. by eapply list_elem_of_lookup_2.
Qed.

Lemma elem_of_extend_columns c acc ks :
  c ∈ extend_columns acc ks ↔ c ∈ acc ∨ c ∈ ks.
Proof.
  unfold extend_columns. revert acc. induction ks as [|k ks IH]; intros acc.
  - cbn. set_solver.
  - cbn [foldl]. rewrite IH. case_bool_decide; set_solver.
Qed.

Lemma extend_columns_subseteq acc ks : ks ⊆ acc → extend_columns acc ks = acc.
Proof.
  unfold extend_columns. induction ks as [|k ks IH]; intros Hs; [done|].
  cbn [foldl]. rewrite bool_decide_eq_true_2 by set_solver.
  apply IH. set_solver.
Qed.

Lemma NoDup_extend_columns acc ks : NoDup acc → NoDup (extend_columns acc ks).
Proof.
  unfold extend_columns. revert acc. induction ks as [|k ks IH]; intros acc Hnd; [done|].
  cbn [foldl]. apply IH. case_bool_decide; [done|].
  apply NoDup_app. split_and!; [done| |apply NoDup_singleton].
  intros x Hx Hx'. apply list_elem_of_singleton in Hx'. by subst.
Qed.

Lemma filter_none {A} (P : A → Prop) `{!∀ x, Decision (P x)} (l : list A) :
  (∀ x, x ∈ l → ¬ P x) → filter P l = [].
Proof.
  induction l as [|x l IH]; intros Hall; [done|].
  rewrite filter_cons_False by (apply Hall; left). apply IH.
  intros y Hy. apply Hall. by right.
Qed.

(** ** [drop_duplicates(keep="last")] *)

Section KeepLast.
Variable col : string.
Implicit Types l a b : list (list (string * cell)).

Lemma keep_last_elem_of l r : r ∈ keep_last col l → r ∈ l.
Proof.
  induction l as [|x l IH]; [done|]. cbn. case_bool_decide; set_solver.
Qed.

Lemma keep_last_keys l k :
  k ∈ field col <$> keep_last col l ↔ k ∈ field col <$> l.
Proof.
  induction l as [|x l IH]; [done|]. cbn. case_bool_decide as Hx.
  - rewrite IH. set_solver.
  - cbn. set_solver.
Qed.

Lemma keep_last_NoDup l : NoDup (field col <$> keep_last col l).
Proof.
  induction l as [|x l IH]; [constructor|]. cbn. case_bool_decide as Hx; [done|].
  cbn. apply NoDup_cons. split; [|done]. by rewrite keep_last_keys.
Qed.

Lemma keep_last_id l : NoDup (field col <$> l) → keep_last col l = l.
Proof.
  induction l as [|x l IH]; [done|]. cbn. intros [Hx Hnd]%NoDup_cons.
  rewrite bool_decide_eq_false_2 by done. by rewrite IH.
Qed.

Lemma keep_last_app a b :
  keep_last col (a ++ b) =
  filter (λ r, field col r ∉ field col <$> b) (keep_last col a)
    ++ keep_last col b.
Proof.
  induction a as [|x a IH]; [done|]. cbn. rewrite fmap_app.
  case_bool_decide as H1; case_bool_decide as H2.
  - done.
  - rewrite filter_cons_False; [done|]. set_solver.
  - set_solver.
  - rewrite filter_cons_True by set_solver. cbn. by f_equal.
Qed.

Lemma keep_last_merge_idemp a b :
  keep_last col (keep_last col (a ++ b) ++ b) = keep_last col (a ++ b).
Proof.
  rewrite (keep_last_app (keep_last col (a ++ b)) b).
  rewrite (keep_last_id (keep_last col (a ++ b))) by apply keep_last_NoDup.
  rewrite keep_last_app, filter_app.
  assert (filter (λ r, field col r ∉ field col <$> b) (keep_last col b) = [])
    as ->.
  { apply filter_none. intros r Hr Hn. apply Hn.
    apply keep_last_elem_of in Hr. by apply list_elem_of_fmap_2. }
  rewrite app_nil_r, list_filter_filter. f_equal.
  apply list_filter_iff. tauto.
Qed.

(** Of the rows under one key, [keep_last] keeps the last, alone. *)
Lemma keep_last_filter l k :
  filter (λ r, field col r = k) (keep_last col l) =
  option_list (last (filter (λ r, field col r = k) l)).
Proof.
  induction l as [|x l IH]; [done|]. cbn [keep_last].
  case_bool_decide as Hx.
  - rewrite IH. destruct (decide (field col x = k)) as [Hk|Hk].
    + rewrite (filter_cons_True _ x) by done.
      destruct (filter (λ r, field col r = k) l) as [|y ys] eqn:Hf; [|done].
      exfalso. apply list_elem_of_fmap in Hx as (y & Hy & Hin).
      assert (y ∈ filter (λ r, field col r = k) l) as Hy'
        by (apply list_elem_of_filter; split; congruence).
      rewrite Hf in Hy'. by apply not_elem_of_nil in Hy'.
    + by rewrite (filter_cons_False _ x) by done.
  - destruct (decide (field col x = k)) as [Hk|Hk].
    + rewrite !(filter_cons_True _ x) by done.
      assert (filter (λ r, field col r = k) l = []) as Hnil.
      { apply filter_none. intros y Hy Hyk. apply Hx.
        rewrite Hk, <- Hyk. by apply list_elem_of_fmap_2. }
      rewrite IH, Hnil. done.
    + rewrite !(filter_cons_False _ x) by done. apply IH.
Qed.
End KeepLast.

(** ** The status report *)

Lemma filter_fmap {A B} (f : A → B) (P : B → Prop) `{!∀ y, Decision (P y)}
    (l : list A) :
  filter P (f <$> l) = f <$> filter (λ x, P (f x)) l.
Proof.
  induction l as [|x l IH]; [done|]. cbn [fmap list_fmap].
  destruct (decide (P (f x))).
  - rewrite !filter_cons_True by done. cbn. by f_equal.
  - by rewrite !filter_cons_False by done.
Qed.

Lemma field_not_key c (r : list (string * cell)) : c ∉ r.*1 → field c r = NaN.
Proof.
  unfold field, dict_get. induction r as [|[k v] r IH]; [done|].
  cbn. intros Hc. rewrite bool_decide_eq_false_2 by set_solver.
  apply IH. set_solver.
Qed.

Lemma output_row_id d e i : field "Report ID" (output_row d e i) = Text i.
Proof. unfold output_row. by destruct (pdf_exists d i). Qed.

Lemma output_row_keys d e i :
  (output_row d e i).*1 = ["Report ID"; "Status"; "Error Message"].
Proof. unfold output_row. by destruct (pdf_exists d i). Qed.

Lemma report_ids_new_output_df q e d :
  report_ids (new_output_df q e d) = Text <$> r_index q.
Proof.
  unfold report_ids, new_output_df. cbn [rows].
  rewrite <- list_fmap_compose. apply list_fmap_ext. intros ? i _.
  apply output_row_id.
Qed.

(** With a readable previous table, the written table is the concatenation
    with the older of two rows under one identifier dropped. *)
Lemma create_output_report_stored q e d prev :
  let cols := extend_columns (columns prev)
                ["Report ID"; "Status"; "Error Message"] in
  create_output_report q e d (Stored prev) =
  mkDataFrame cols
    (keep_last "Report ID"
       (reindex cols <$> (rows prev ++ rows (new_output_df q e d)))).
Proof.
  intros cols. unfold create_output_report, drop_duplicates, concat.
  cbn [columns rows]. fold cols.
  rewrite bool_decide_eq_true_2; [done|].
  apply elem_of_extend_columns. right. set_solver.
Qed.

Lemma report_id_in_columns q e d prev :
  "Report ID" ∈ columns (create_output_report q e d (Stored prev)).
Proof.
  rewrite create_output_report_stored. cbn [columns].
  apply elem_of_extend_columns. right. set_solver.
Qed.

Lemma records_of_new_absent q e d i :
  i ∉ r_index q → records_of i (new_output_df q e d) = [].
Proof.
  intros Hi. unfold records_of, new_output_df. cbn [rows].
  apply filter_none. intros r Hr Hid.
  apply list_elem_of_fmap in Hr as (j & -> & Hj).
  rewrite output_row_id in Hid. by simplify_eq.
Qed.

Lemma records_of_new_present q e d i :
  i ∈ r_index q →
  last (records_of i (new_output_df q e d)) = Some (output_row d e i).
Proof.
  intros Hi. unfold records_of, new_output_df. cbn [rows].
  destruct (last _) as [r|] eqn:Hl.
  - apply last_Some_elem_of in Hl.
    apply list_elem_of_filter in Hl as [Hid Hr].
    apply list_elem_of_fmap in Hr as (j & -> & Hj).
    rewrite output_row_id in Hid. by simplify_eq.
  - apply last_None in Hl.
    assert (output_row d e i ∈
            filter (λ r, field "Report ID" r = Text i)
                   (output_row d e <$> r_index q)) as Hin.
    { apply list_elem_of_filter. split; [apply output_row_id|].
      by apply list_elem_of_fmap_2. }
    rewrite Hl in Hin. by apply not_elem_of_nil in Hin.
Qed.

(** The records of one identifier in the written table: the last of the
    previous and the new ones, laid out on the merged columns. *)
Lemma records_of_merged q e d prev i :
  let t := create_output_report q e d (Stored prev) in
  records_of i t =
  reindex (columns t)
    <$> option_list (last (records_of i prev
                           ++ records_of i (new_output_df q e d))).
Proof.
  intros t. pose proof (report_id_in_columns q e d prev) as Hcol. fold t in Hcol.
  unfold t at 1. rewrite create_output_report_stored. unfold records_of at 1.
  cbn [rows]. rewrite keep_last_filter.
  assert (columns t = extend_columns (columns prev)
                        ["Report ID"; "Status"; "Error Message"]) as <-.
  { unfold t. by rewrite create_output_report_stored. }
  rewrite filter_fmap, fmap_last.
  rewrite (list_filter_iff _ (λ r, field "Report ID" r = Text i)).
  2:{ intros r. by rewrite field_reindex_in. }
  rewrite filter_app. unfold records_of.
  by destruct (last _).
Qed.

Ltac by_computation := apply (bool_decide_unpack _); by vm_compute.

Lemma columns_merged_prev q e d prev c :
  c ∈ columns prev → c ∈ columns (create_output_report q e d (Stored prev)).
Proof.
  intros Hc. rewrite create_output_report_stored. cbn [columns].
  apply elem_of_extend_columns. by left.
Qed.

Lemma records_of_merged_old q e d prev i :
  Text i ∈ report_ids prev → i ∉ r_index q →
  ∃ r, last (records_of i prev) = Some r
       ∧ records_of i (create_output_report q e d (Stored prev))
         = [reindex (columns (create_output_report q e d (Stored prev))) r].
Proof.
  intros Hin Hq.
  assert (∃ r, last (records_of i prev) = Some r) as [r Hr].
  { apply last_is_Some. unfold report_ids in Hin.
    apply list_elem_of_fmap in Hin as (r0 & Hid & Hr0). intros Hnil.
    assert (r0 ∈ records_of i prev) as Hin'
      by (apply list_elem_of_filter; split; [done|done]).
    rewrite Hnil in Hin'. by apply not_elem_of_nil in Hin'. }
  exists r. split; [done|].
  rewrite records_of_merged, records_of_new_absent by done.
  by rewrite app_nil_r, Hr.
Qed.

Lemma records_of_merged_new q e d prev i :
  i ∈ r_index q →
  ∃ r', records_of i (create_output_report q e d (Stored prev)) = [r']
        ∧ ∀ c, field c r' = field c (output_row d e i).
Proof.
  intros Hq.
  exists (reindex (columns (create_output_report q e d (Stored prev)))
            (output_row d e i)).
  split.
  - rewrite records_of_merged. rewrite last_app.
    by rewrite records_of_new_present.
  - intros c. rewrite field_reindex. case_bool_decide as Hc; [done|].
    symmetry. apply field_not_key. rewrite output_row_keys. intros Hc'.
    apply Hc. rewrite create_output_report_stored. cbn [columns].
    apply elem_of_extend_columns. by right.
Qed.

Lemma report_ids_merged q e d prev k :
  k ∈ report_ids (create_output_report q e d (Stored prev)) ↔
  k ∈ report_ids prev ∨ k ∈ Text <$> r_index q.
Proof.
  pose proof (report_id_in_columns q e d prev) as Hcol.
  rewrite create_output_report_stored in Hcol |- *. cbn [columns] in Hcol.
  unfold report_ids at 1. cbn [rows]. rewrite keep_last_keys.
  rewrite <- list_fmap_compose.
  rewrite (list_fmap_ext _ (field "Report ID") _).
  2:{ intros ? r _. cbn. by apply field_reindex_in. }
  rewrite fmap_app, elem_of_app. fold (report_ids prev).
  fold (report_ids (new_output_df q e d)).
  by rewrite report_ids_new_output_df.
Qed.

Lemma NoDup_report_ids_merged q e d prev :
  NoDup (report_ids (create_output_report q e d (Stored prev))).
Proof. rewrite create_output_report_stored. apply keep_last_NoDup. Qed.

(** The status rows of a call are one per item of the queue, in queue order
    and under the item's identifier. *)
Lemma one_status_row_per_item q download_errors dir :
  report_ids (new_output_df q download_errors dir) = Text <$> r_index q
  ∧ length (rows (new_output_df q download_errors dir)) = r_len q
  ∧ ∀ i, length (records_of i (new_output_df q download_errors dir))
         = length (filter (λ j, j = i) (r_index q)).
Proof.
  split_and!.
  - apply report_ids_new_output_df.
  - unfold new_output_df, r_len, r_index. cbn [rows]. by rewrite !length_fmap.
  - intros i. unfold records_of, new_output_df. cbn [rows].
    rewrite filter_fmap, length_fmap. f_equal.
    apply list_filter_iff. intros j. rewrite output_row_id.
    split; [by intros [= ->]|by intros ->].
Qed.

(** C6. An identifier of the previous status table that is not in the
    current queue keeps one record in the written table, cell for cell the
    last record the previous table held for it. *)
Theorem C6_prior_identifiers_kept prev q download_errors dir i :
  well_formed prev →
  Text i ∈ report_ids prev →
  i ∉ r_index q →
  ∃ r r',
    last (records_of i prev) = Some r
    ∧ records_of i (create_output_report q download_errors dir (Stored prev))
      = [r']
    ∧ ∀ c, field c r' = field c r.
Proof.
  intros Hwf Hin Hq.
  destruct (records_of_merged_old q download_errors dir prev i Hin Hq)
    as (r & Hr & Heq).
  eexists r, _. split_and!; [done|exact Heq|].
  intros c. rewrite field_reindex. case_bool_decide as Hc; [done|].
  symmetry. apply field_not_key.
  apply last_Some_elem_of, list_elem_of_filter in Hr as [_ Hr].
  rewrite (Hwf r Hr). intros Hc'. apply Hc. by apply columns_merged_prev.
Qed.

Lemma C6_prior_identifiers_kept_witness :
  ∃ r r',
    last (records_of "A"
            (mkDataFrame ["Report ID"; "Status"; "Error Message"]
               [status_row "A" "Failed" "File not found"])) = Some r
    ∧ records_of "A"
        (create_output_report
           (mkReports ["Pdf_URL"] [("B", [("Pdf_URL", Text "http://b")])])
           [] ∅
           (Stored (mkDataFrame ["Report ID"; "Status"; "Error Message"]
                      [status_row "A" "Failed" "File not found"])))
      = [r']
    ∧ ∀ c, field c r' = field c r.
Proof.
  apply (C6_prior_identifiers_kept
           (mkDataFrame ["Report ID"; "Status"; "Error Message"]
              [status_row "A" "Failed" "File not found"])
           (mkReports ["Pdf_URL"] [("B", [("Pdf_URL", Text "http://b")])])
           [] ∅ "A").
  - intros r Hr. apply list_elem_of_singleton in Hr. by subst.
  - by_computation.
  - by_computation.
Defined.

(** C7. A previous table with the identifiers A and B merged with a run over
    the identifiers B and C holds exactly A, B and C, each once; B and C
    carry the record of this run, A the record of the previous table. *)
Theorem C7_merge_latest_wins prev q download_errors dir A B C :
  A ≠ B → A ≠ C →
  (∀ k, k ∈ report_ids prev ↔ k = Text A ∨ k = Text B) →
  (∀ i, i ∈ r_index q ↔ i = B ∨ i = C) →
  let t := create_output_report q download_errors dir (Stored prev) in
  (∀ k, k ∈ report_ids t ↔ k = Text A ∨ k = Text B ∨ k = Text C)
  ∧ NoDup (report_ids t)
  ∧ (∃ r r', last (records_of A prev) = Some r ∧ records_of A t = [r']
             ∧ ∀ c, c ∈ columns prev → field c r' = field c r)
  ∧ (∃ r', records_of B t = [r']
           ∧ ∀ c, field c r' = field c (output_row dir download_errors B))
  ∧ (∃ r', records_of C t = [r']
           ∧ ∀ c, field c r' = field c (output_row dir download_errors C)).
Proof.
  intros HAB HAC Hprev Hq t. split_and!.
  - intros k. unfold t. rewrite report_ids_merged, Hprev.
    rewrite list_elem_of_fmap. split.
    + intros [[->| ->]|(i & -> & [->| ->]%Hq)]; auto.
    + intros [->|[->| ->]]; [auto|auto|].
      right. exists C. split; [done|]. apply Hq. by right.
  - apply NoDup_report_ids_merged.
  - destruct (records_of_merged_old q download_errors dir prev A)
      as (r & Hr & Heq).
    + apply Hprev. by left.
    + rewrite Hq. intros [?|?]; congruence.
    + eexists r, _. split_and!; [done|exact Heq|].
      intros c Hc. apply field_reindex_in. by apply columns_merged_prev.
  - apply records_of_merged_new, Hq. by left.
  - apply records_of_merged_new, Hq. by right.
Qed.

Lemma C7_merge_latest_wins_witness :
  let prev := mkDataFrame ["Report ID"; "Status"; "Error Message"]
                [status_row "A" "Downloaded" "";
                 status_row "B" "Failed" "Network error: timed out"] in
  let q := mkReports ["Pdf_URL"]
             [("B", [("Pdf_URL", Text "http://b")]);
              ("C", [("Pdf_URL", Text "http://c")])] in
  let dir : gmap string string := {[ "B.pdf" := "%PDF" ]} in
  let t := create_output_report q ["C"; "Network error: refused"] dir
             (Stored prev) in
  (∀ k, k ∈ report_ids t ↔ k = Text "A" ∨ k = Text "B" ∨ k = Text "C")
  ∧ NoDup (report_ids t)
  ∧ (∃ r r', last (records_of "A" prev) = Some r ∧ records_of "A" t = [r']
             ∧ ∀ c, c ∈ columns prev → field c r' = field c r)
  ∧ (∃ r', records_of "B" t = [r']
           ∧ ∀ c, field c r'
                  = field c (output_row dir ["C"; "Network error: refused"] "B"))
  ∧ (∃ r', records_of "C" t = [r']
           ∧ ∀ c, field c r'
                  = field c (output_row dir ["C"; "Network error: refused"] "C")).
Proof.
  intros prev q dir.
  apply (C7_merge_latest_wins prev q ["C"; "Network error: refused"] dir
           "A" "B" "C"); [done|done| |].
  - intros k. unfold report_ids, prev. cbn. set_solver.
  - intros i. unfold r_index, q. cbn. set_solver.
Defined.

(** ** The message [create_output_report] looks up in [download_errors] *)

Lemma error_message_absent i l : i ∉ l → error_message i l = "File not found".
Proof. intros Hi. unfold error_message. by rewrite bool_decide_eq_false_2. Qed.

Lemma error_message_here i m l : error_message i (i :: m :: l) = m.
Proof.
  unfold error_message. rewrite bool_decide_eq_true_2 by set_solver.
  cbn [index_of]. rewrite bool_decide_eq_true_2 by done.
  rewrite bool_decide_eq_true_2 by (cbn; lia). done.
Qed.

Lemma error_message_skip i i' m' l :
  i' ≠ i → m' ≠ i → error_message i (i' :: m' :: l) = error_message i l.
Proof.
  intros H1 H2. unfold error_message.
  destruct (decide (i ∈ l)) as [Hin|Hin].
  - rewrite !bool_decide_eq_true_2 by set_solver. cbn [index_of].
    rewrite !bool_decide_eq_false_2 by done.
    destruct (index_of i l) as [n|]; [|done]. cbn [fmap option_fmap option_map].
    replace (S (S n) + 1) with (S (S (n + 1))) by lia. cbn [length lookup list_lookup].
    destruct (decide (n + 1 < length l)).
    + rewrite !bool_decide_eq_true_2 by lia. done.
    + rewrite !bool_decide_eq_false_2 by lia. done.
  - rewrite !bool_decide_eq_false_2 by set_solver. done.
Qed.

Lemma elem_of_paired x entries :
  x ∈ paired entries ↔ x ∈ entries.*1 ∨ x ∈ entries.*2.
Proof.
  unfold paired. induction entries as [|[i m] es IH]; cbn; [set_solver|].
  rewrite !elem_of_cons, IH. tauto.
Qed.

(** When the appends of the workers are not interleaved, the message found for
    an identifier is the one its own worker appended. *)
Lemma error_message_paired entries i m :
  NoDup entries.*1 →
  (∀ m', m' ∈ entries.*2 → m' ∉ entries.*1) →
  (i, m) ∈ entries →
  error_message i (paired entries) = m.
Proof.
  induction entries as [|[i' m'] es IH]; intros Hnd Hmsg Hin.
  - by apply not_elem_of_nil in Hin.
  - cbn in Hnd. apply NoDup_cons in Hnd as [Hi' Hnd].
    change (paired ((i', m') :: es)) with (i' :: m' :: paired es).
    apply elem_of_cons in Hin as [Heq|Hin].
    + simplify_eq. apply error_message_here.
    + assert (i ∈ es.*1) as Hi by (by apply (list_elem_of_fmap_2 fst) in Hin).
      rewrite error_message_skip.
      * apply IH; [done| |done]. intros m'' Hm'' Hm3.
        apply (Hmsg m''); cbn; set_solver.
      * intros ->. done.
      * intros ->. apply (Hmsg i); cbn; set_solver.
Qed.

(** ** One worker running alone *)

Lemma download_file_success oracle i row st :
  (download_file oracle i row).2 = true →
  pdf_exists (run_effects (download_file oracle i row).1 st).1 i = true.
Proof.
  unfold download_file. destruct (oracle i (choose_url row)); try done.
  intros _. apply pdf_exists_true. cbn. rewrite lookup_insert_eq. by eexists.
Qed.

(** C4, as the code has it. Every item of the queue gets one status record:
    "Downloaded" with an empty message when its file is in the directory as
    the report is made, which is so for a worker that succeeded; otherwise
    "Failed", with the message its worker appended when the appends of the
    workers did not interleave, and "File not found" when the identifier is
    not in the list. *)
Theorem C4_status_record_of_each_item oracle q entries dir :
  NoDup entries.*1 →
  (∀ m, m ∈ entries.*2 → (m ∉ entries.*1) ∧ m ∉ r_index q) →
  (∀ i row st,
      (download_file oracle i row).2 = true →
      pdf_exists (run_effects (download_file oracle i row).1 st).1 i = true)
  ∧ Forall2
      (λ i r,
         (pdf_exists dir i = true ∧ r = status_row i "Downloaded" "")
         ∨ (pdf_exists dir i = false
            ∧ ∃ msg, r = status_row i "Failed" msg
                     ∧ (∀ m, (i, m) ∈ entries → msg = m)
                     ∧ (i ∉ entries.*1 → msg = "File not found")))
      (r_index q) (rows (new_output_df q (paired entries) dir)).
Proof.
  intros Hnd Hmsg. split; [intros; by apply download_file_success|].
  unfold new_output_df. cbn [rows]. apply Forall2_fmap_r, Forall_Forall2_diag.
  apply Forall_forall. intros i Hi. unfold output_row, compose. cbn beta.
  destruct (pdf_exists dir i) eqn:Hex; [left; by split|right].
  split; [done|]. eexists. split; [done|]. split.
  - intros m Hm. apply error_message_paired; [done| |done].
    intros m' Hm'. by apply Hmsg.
  - intros Hne. apply error_message_absent. rewrite elem_of_paired.
    intros [?|Hm]; [done|]. by apply (Hmsg i) in Hm as [_ ?].
Qed.

Lemma C4_status_record_of_each_item_witness :
  let q := mkReports ["Pdf_URL"]
             [("A", [("Pdf_URL", Text "http://a")]);
              ("B", [("Pdf_URL", Text "http://b")])] in
  let entries := [("A", "Network error: timed out")] in
  let dir : gmap string string := {[ "B.pdf" := "%PDF" ]} in
  (∀ i row st,
      (download_file (λ _ _, Fetched "%PDF") i row).2 = true →
      pdf_exists
        (run_effects (download_file (λ _ _, Fetched "%PDF") i row).1 st).1 i
      = true)
  ∧ Forall2
      (λ i r,
         (pdf_exists dir i = true ∧ r = status_row i "Downloaded" "")
         ∨ (pdf_exists dir i = false
            ∧ ∃ msg, r = status_row i "Failed" msg
                     ∧ (∀ m, (i, m) ∈ entries → msg = m)
                     ∧ (i ∉ entries.*1 → msg = "File not found")))
      (r_index q) (rows (new_output_df q (paired entries) dir)).
Proof.
  intros q entries dir.
  apply (C4_status_record_of_each_item (λ _ _, Fetched "%PDF") q entries dir).
  - by_computation.
  - intros m Hm. apply list_elem_of_singleton in Hm as ->.
    split; by_computation.
Defined.

(** C4 as stated fails: a worker whose write failed leaves its file under
    the final name, and the item is then recorded as "Downloaded" although its
    outcome is a failure with a recorded cause. *)
Lemma C4_failed_item_recorded_downloaded :
  let oracle := λ (_ : string) (_ : cell),
                  WriteError "%PD" "[Errno 28] No space left on device" in
  let row := [("Pdf_URL", Text "http://a"); ("Report Html Address", NaN)] in
  let q := mkReports ["Pdf_URL"; "Report Html Address"] [("A", row)] in
  let st := run_effects (download_file oracle "A" row).1 (∅, []) in
  (download_file oracle "A" row).2 = false
  ∧ st.2 = ["A"; "Unexpected error: [Errno 28] No space left on device"]
  ∧ rows (new_output_df q st.2 st.1) = [status_row "A" "Downloaded" ""]
  ∧ rows (new_output_df q st.2 st.1)
    ≠ [status_row "A" "Failed"
         "Unexpected error: [Errno 28] No space left on device"]
  ∧ error_message "A" [] ≠ "file not found".
Proof. by vm_compute. Qed.

(** C5, as the code has it. A worker that fails before it opens the file
    leaves the directory as it was; a worker whose write fails leaves what was
    written under the final name; a worker that succeeds leaves the whole
    body there. *)
Theorem C5_files_left_by_a_worker oracle i row st :
  let success := (download_file oracle i row).2 in
  let st' := run_effects (download_file oracle i row).1 st in
  match oracle i (choose_url row) with
  | RequestError _ | OtherError _ => success = false ∧ st'.1 = st.1
  | WriteError written _ =>
      success = false ∧ st'.1 = <[pdf_name i := written]> st.1
  | Fetched content =>
      success = true ∧ st'.1 = <[pdf_name i := content]> st.1
  end.
Proof.
  unfold download_file. destruct (oracle i (choose_url row)); cbn;
    by rewrite ?insert_insert_eq.
Qed.

(** C5 as stated fails: the write is not all-or-nothing. A worker that ends
    in failure can leave a file under the final name that was not there. *)
Lemma C5_failed_worker_leaves_file :
  ¬ ∀ oracle i row st,
      (download_file oracle i row).2 = false →
      (run_effects (download_file oracle i row).1 st).1 !! pdf_name i
      = st.1 !! pdf_name i.
Proof.
  intros H.
  specialize (H (λ _ _, WriteError "%PD" "[Errno 28] No space left on device")
                "A" [("Pdf_URL", Text "http://a")] (∅, []) eq_refl).
  by vm_compute in H.
Qed.

(** ** The controller and its threads *)

Lemma alive_count_app ts1 ts2 :
  alive_count (ts1 ++ ts2) = alive_count ts1 + alive_count ts2.
Proof. unfold alive_count. by rewrite filter_app, length_app. Qed.

Lemma alive_count_le_length ts : alive_count ts ≤ length ts.
Proof. apply length_filter. Qed.

Lemma alive_count_live name todo : alive_count [mkThread name (Some todo)] = 1.
Proof. reflexivity. Qed.

Lemma alive_count_ended name : alive_count [mkThread name None] = 0.
Proof. reflexivity. Qed.

Lemma alive_count_cons t ts : alive_count (t :: ts) = alive_count [t] + alive_count ts.
Proof. apply (alive_count_app [t] ts). Qed.

Section OrchestratorFacts.
Variable C : nat.
Variable oracle : string → cell → fetch_result.
Hypothesis C_pos : 1 ≤ C.

Lemma within_bound_start queue dir errs : within_bound C (start queue dir errs).
Proof. split; cbn; change (alive_count []) with 0; lia. Qed.

Lemma worker_alive_count s s' :
  worker s s' → alive_count (threads s') ≤ alive_count (threads s)
                ∧ pc s' = pc s.
Proof.
  destruct 1; cbn [threads pc]; rewrite !alive_count_app;
    rewrite !(alive_count_cons _ ts2), ?alive_count_live, ?alive_count_ended;
    split; try done; lia.
Qed.

Lemma within_bound_step s s' : within_bound C s → step C oracle s s' → within_bound C s'.
Proof.
  intros [Hle Hlt] [Hs|[Hs|Hs]].
  - destruct Hs. unfold within_bound. cbn [threads pc] in *. split; [|done].
    rewrite alive_count_app, alive_count_live. specialize (Hlt eq_refl). lia.
  - destruct Hs; unfold within_bound; cbn [threads pc] in *; split;
      try done; try lia.
  - apply worker_alive_count in Hs as [Hc Hpc]. unfold within_bound. split; [lia|].
    rewrite Hpc. intros Hd. specialize (Hlt Hd). lia.
Qed.

Lemma within_bound_reachable queue dir errs s :
  rtc (step C oracle) (start queue dir errs) s → within_bound C s.
Proof.
  revert s. apply (rtc_ind_r (R := step C oracle) (within_bound C)).
  - apply within_bound_start.
  - intros s1 s2 _ Hstep IH. by eapply within_bound_step.
Qed.
End OrchestratorFacts.

(** C2. Whatever the bound [C ≥ 1], the queue and the interleaving, no
    reachable state of [download_pdfs] has more than [C] threads alive; a
    thread is started only when fewer than [C] are alive; and while [C]
    threads are alive the polling loop can only wait. *)
Theorem C2_at_most_C_threads_alive C oracle queue dir errs s :
  1 ≤ C →
  rtc (step C oracle) (start queue dir errs) s →
  alive_count (threads s) ≤ C
  ∧ (∀ s', spawn oracle s s' → alive_count (threads s) < C)
  ∧ (∀ s', pc s = AtPoll → C ≤ alive_count (threads s) →
           controller C s s' → s' = s).
Proof.
  intros HC Hrun.
  destruct (within_bound_reachable C oracle HC queue dir errs s Hrun) as [Hle Hlt].
  split_and!.
  - done.
  - intros s' Hs. destruct Hs. by apply Hlt.
  - intros s' Hpc Hfull Hc. destruct Hc; cbn [threads pc] in *;
      try done; lia.
Qed.

Lemma C2_at_most_C_threads_alive_witness :
  let oracle := λ (_ : string) (_ : cell), Fetched "%PDF" in
  let row := [("Pdf_URL", Text "http://a")] in
  let s := mkOrch [("B", row)]
             [mkThread "A" (Some (download_file oracle "A" row).1)]
             (∅, []) AtPoll in
  alive_count (threads s) ≤ MAX_CONCURRENT_THREADS
  ∧ (∀ s', spawn oracle s s' → alive_count (threads s) < MAX_CONCURRENT_THREADS)
  ∧ (∀ s', pc s = AtPoll → MAX_CONCURRENT_THREADS ≤ alive_count (threads s) →
           controller MAX_CONCURRENT_THREADS s s' → s' = s).
Proof.
  intros oracle row s.
  apply (C2_at_most_C_threads_alive MAX_CONCURRENT_THREADS oracle
           [("A", row); ("B", row)] ∅ [] s).
  - unfold MAX_CONCURRENT_THREADS. lia.
  - apply rtc_once. left. apply (spawn_next oracle "A" row [("B", row)] []).
Defined.

(** ** Every item is dispatched once *)

Lemma dispatched_step C oracle s s' :
  step C oracle s s' →
  (t_name <$> threads s') ++ (pending s').*1
  = (t_name <$> threads s) ++ (pending s).*1.
Proof.
  intros [Hs|[Hs|Hs]]; destruct Hs; cbn [threads pending]; try done.
  - rewrite fmap_app, <- app_assoc. done.
  - by rewrite !fmap_app.
  - by rewrite !fmap_app.
Qed.

(** At every point of a run the threads started so far and the rows still
    pending are the queue, in order; and once the controller is past its
    final wait, nothing is pending and no thread is alive. *)
Lemma dispatched_reachable C oracle queue dir errs s :
  rtc (step C oracle) (start queue dir errs) s →
  (t_name <$> threads s) ++ (pending s).*1 = queue.*1
  ∧ (pc s = AtDispatch ∨ pc s = AtPoll ∨ pending s = [])
  ∧ (pc s = AtDone → alive_count (threads s) = 0).
Proof.
  revert s. apply (rtc_ind_r (R := step C oracle)
    (λ s, (t_name <$> threads s) ++ (pending s).*1 = queue.*1
          ∧ (pc s = AtDispatch ∨ pc s = AtPoll ∨ pending s = [])
          ∧ (pc s = AtDone → alive_count (threads s) = 0))).
  - split_and!; [done|by left|done].
  - intros s1 s2 _ Hstep (Hq & Hpc & Hdone). split_and!.
    + rewrite (dispatched_step C oracle s1 s2 Hstep). exact Hq.
    + destruct Hstep as [Hs|[Hs|Hs]]; destruct Hs; cbn [pc pending] in *;
        auto; destruct Hpc as [?|[?|?]]; auto; done.
    + destruct Hstep as [Hs|[Hs|Hs]]; destruct Hs; cbn [pc threads] in *;
        try done.
      * intros _. lia.
      * intros Hp. specialize (Hdone Hp). rewrite alive_count_app in Hdone.
        rewrite (alive_count_cons _ ts2), alive_count_live in Hdone. lia.
      * intros Hp. specialize (Hdone Hp). rewrite alive_count_app in Hdone.
        rewrite (alive_count_cons _ ts2), alive_count_live in Hdone. lia.
Qed.

(** ** What a run of [download_pdfs] still has to do *)

Lemma todo_effects_app ts1 ts2 :
  todo_effects (ts1 ++ ts2) = todo_effects ts1 ++ todo_effects ts2.
Proof. unfold todo_effects. apply flat_map_app. Qed.

Lemma todo_effects_cons t ts :
  todo_effects (t :: ts) = default [] (t_todo t) ++ todo_effects ts.
Proof. reflexivity. Qed.

Lemma todo_effects_ended ts : alive_count ts = 0 → todo_effects ts = [].
Proof.
  induction ts as [|[name [todo|]] ts IH]; [done| |].
  - rewrite alive_count_cons, alive_count_live. lia.
  - rewrite alive_count_cons, alive_count_ended. intros Hts. cbn. by apply IH.
Qed.

(** A step either leaves the remaining effects and the shared state as they
    are, or performs one of the remaining effects. *)
Lemma step_remaining C oracle s s' :
  step C oracle s s' →
  (remaining oracle s' = remaining oracle s ∧ shared s' = shared s)
  ∨ ∃ before eff after,
      remaining oracle s = before ++ eff :: after
      ∧ remaining oracle s' = before ++ after
      ∧ shared s' = apply_effect eff (shared s).
Proof.
  unfold remaining. intros [Hs|[Hs|Hs]]; destruct Hs; cbn [threads pending shared].
  - left. split; [|done]. rewrite todo_effects_app, todo_effects_cons.
    cbn [t_todo default]. change (todo_effects []) with (@nil effect).
    rewrite app_nil_r, <- app_assoc. done.
  - by left.
  - by left.
  - by left.
  - by left.
  - by left.
  - right.
    exists (todo_effects ts1), eff, (todo ++ todo_effects ts2 ++ effects_of oracle q).
    rewrite !todo_effects_app, !todo_effects_cons. cbn [t_todo default].
    rewrite <- !app_assoc. by split_and!.
  - left. split; [|done]. by rewrite !todo_effects_app, !todo_effects_cons.
Qed.

Lemma remaining_done oracle ts sh :
  alive_count ts = 0 → remaining oracle (mkOrch [] ts sh AtDone) = [].
Proof. intros Hts. unfold remaining. cbn. by rewrite todo_effects_ended. Qed.

(** An invariant of the shared state and the remaining effects holds at
    every point of a run. *)
Lemma run_invariant C oracle (P : gmap string string * list string → list effect → Prop)
    queue dir errs s :
  P (dir, errs) (effects_of oracle queue) →
  (∀ sh before eff after,
      P sh (before ++ eff :: after) → P (apply_effect eff sh) (before ++ after)) →
  rtc (step C oracle) (start queue dir errs) s →
  P (shared s) (remaining oracle s).
Proof.
  intros Hstart Hstep. revert s.
  apply (rtc_ind_r (R := step C oracle) (λ s, P (shared s) (remaining oracle s))).
  - exact Hstart.
  - intros s1 s2 _ Hs IH.
    destruct (step_remaining C oracle s1 s2 Hs)
      as [[-> ->]|(before & eff & after & Hr & -> & ->)]; [done|].
    apply Hstep. by rewrite <- Hr.
Qed.

(** When [download_pdfs] returns, nothing remains to be done. *)
Lemma run_invariant_done C oracle (P : gmap string string * list string → list effect → Prop)
    queue dir errs dir' errs' :
  P (dir, errs) (effects_of oracle queue) →
  (∀ sh before eff after,
      P sh (before ++ eff :: after) → P (apply_effect eff sh) (before ++ after)) →
  download_pdfs C oracle queue dir errs dir' errs' →
  P (dir', errs') [].
Proof.
  intros Hstart Hstep [ts Hrun].
  pose proof (run_invariant C oracle P queue dir errs _ Hstart Hstep Hrun) as HP.
  destruct (dispatched_reachable C oracle queue dir errs _ Hrun) as (_ & _ & Hdone).
  rewrite remaining_done in HP by (by apply Hdone). exact HP.
Qed.

(** ** What a run appends and writes *)

Lemma appends_app effs1 effs2 :
  appends (effs1 ++ effs2) = appends effs1 ++ appends effs2.
Proof. unfold appends. apply omap_app. Qed.

Lemma appends_effects_of oracle queue :
  appends (effects_of oracle queue) = paired (omap (failure_entry oracle) queue).
Proof.
  induction queue as [|[i row] rest IH]; [done|].
  change (effects_of oracle ((i, row) :: rest))
    with ((download_file oracle i row).1 ++ effects_of oracle rest).
  change (omap (failure_entry oracle) ((i, row) :: rest))
    with (match failure_entry oracle (i, row) with
          | Some y => y :: omap (failure_entry oracle) rest
          | None => omap (failure_entry oracle) rest
          end).
  rewrite appends_app, IH. unfold failure_entry, download_file.
  cbn [fst snd]. by destruct (oracle i (choose_url row)).
Qed.

(** What [download_pdfs] appends to [download_errors]. *)
Lemma download_pdfs_errors C oracle queue dir errs dir' errs' :
  download_pdfs C oracle queue dir errs dir' errs' →
  ∃ added, errs' = errs ++ added
           ∧ added ≡ₚ paired (omap (failure_entry oracle) queue).
Proof.
  intros Hrun.
  destruct (run_invariant_done C oracle
    (λ sh effs, ∃ added, sh.2 = errs ++ added
                         ∧ added ++ appends effs
                           ≡ₚ appends (effects_of oracle queue))
    queue dir errs dir' errs') as (added & Herrs & Hperm); [| |exact Hrun|].
  - exists []. by rewrite app_nil_r.
  - intros sh before eff after (added & Hsh & Hperm).
    rewrite appends_app in Hperm |- *. destruct eff as [name|name data|entry].
    + exists added. by split.
    + exists added. by split.
    + exists (added ++ [entry]). cbn [apply_effect snd]. split.
      * by rewrite Hsh, app_assoc.
      * rewrite <- Hperm. rewrite <- !app_assoc. apply Permutation_app_head.
        cbn. by rewrite Permutation_middle.
  - exists added. split; [done|].
    by rewrite app_nil_r, appends_effects_of in Hperm.
Qed.

Lemma written_names_app effs1 effs2 :
  written_names (effs1 ++ effs2) = written_names effs1 ++ written_names effs2.
Proof. unfold written_names. apply omap_app. Qed.

Lemma elem_of_written_names_effects_of oracle queue name :
  name ∈ written_names (effects_of oracle queue) ↔
  ∃ item, item ∈ queue ∧ name = pdf_name item.1
          ∧ opens_file (oracle item.1 (choose_url item.2)) = true.
Proof.
  induction queue as [|[i row] rest IH].
  - split; [by intros ?%not_elem_of_nil|].
    by intros (item & ?%not_elem_of_nil & _).
  - change (effects_of oracle ((i, row) :: rest))
      with ((download_file oracle i row).1 ++ effects_of oracle rest).
    rewrite written_names_app, elem_of_app, IH. split.
    + intros [Hn|(item & Hin & Hn)].
      * exists (i, row). split; [by left|]. unfold download_file in Hn.
        cbn [fst snd]. destruct (oracle i (choose_url row)); cbn in Hn;
          set_solver.
      * exists item. split; [by right|done].
    + intros (item & [->|Hin]%elem_of_cons & -> & Hopen).
      * left. unfold download_file. cbn [fst snd] in *.
        destruct (oracle i (choose_url row)); cbn in *; set_solver.
      * right. by exists item.
Qed.

(** The files of the directory when [download_pdfs] returns. *)
Lemma download_pdfs_files C oracle queue dir errs dir' errs' :
  download_pdfs C oracle queue dir errs dir' errs' →
  (∀ name,
      is_Some (dir' !! name) ↔
      is_Some (dir !! name)
      ∨ ∃ item, item ∈ queue ∧ name = pdf_name item.1
                ∧ opens_file (oracle item.1 (choose_url item.2)) = true)
  ∧ (∀ name, name ∉ pdf_name <$> queue.*1 → dir' !! name = dir !! name).
Proof.
  intros Hrun.
  set (total := written_names (effects_of oracle queue)).
  destruct (run_invariant_done C oracle
    (λ sh effs,
       (∀ name, is_Some (sh.1 !! name) ∨ name ∈ written_names effs
                ↔ is_Some (dir !! name) ∨ name ∈ total)
       ∧ (∀ name, name ∉ total → sh.1 !! name = dir !! name)
       ∧ (∀ name, name ∈ written_names effs → name ∈ total))
    queue dir errs dir' errs') as (Hdom & Hframe & _); [| |exact Hrun|].
  - split_and!; [done|done|done].
  - intros sh before eff after (Hdom & Hframe & Hsub).
    rewrite written_names_app in Hdom, Hsub |- *.
    assert (∀ name c,
              written_names (before ++ after) = written_names before ++ written_names after
              → (∀ n, n ∈ written_names before ++ name :: written_names after → n ∈ total)
              → (∀ n, is_Some (sh.1 !! n)
                      ∨ n ∈ written_names before ++ name :: written_names after
                      ↔ is_Some (dir !! n) ∨ n ∈ total)
              → (∀ n, is_Some (<[name := c]> sh.1 !! n)
                      ∨ n ∈ written_names before ++ written_names after
                      ↔ is_Some (dir !! n) ∨ n ∈ total)
                ∧ (∀ n, n ∉ total → <[name := c]> sh.1 !! n = dir !! n)
                ∧ (∀ n, n ∈ written_names before ++ written_names after
                        → n ∈ total)) as Hfile.
    { intros name c _ Hsub' Hdom'. split_and!.
      - intros n. rewrite <- Hdom'. rewrite lookup_insert.
        case_decide as Hn; [subst n|]; set_solver.
      - intros n Hn. rewrite lookup_insert_ne; [by apply Hframe|].
        intros ->. apply Hn, Hsub'. set_solver.
      - intros n Hn. apply Hsub'. set_solver. }
    destruct eff as [name|name data|entry]; cbn [apply_effect fst].
    + apply Hfile; [apply written_names_app|exact Hsub|exact Hdom].
    + apply Hfile; [apply written_names_app|exact Hsub|exact Hdom].
    + split_and!; [exact Hdom|exact Hframe|exact Hsub].
  - split.
    + intros name. rewrite <- elem_of_written_names_effects_of.
      fold total. rewrite <- Hdom. cbn. set_solver.
    + intros name Hname. apply Hframe. unfold total.
      rewrite elem_of_written_names_effects_of.
      intros (item & Hin & -> & _). apply Hname.
      apply list_elem_of_fmap_2. by apply list_elem_of_fmap_2.
Qed.

(** ** The outcomes of a complete run *)

Lemma length_paired entries : length (paired entries) = 2 * length entries.
Proof.
  unfold paired. induction entries as [|e entries IH]; [done|].
  cbn [flat_map app length]. rewrite IH. lia.
Qed.

(** Every worker either succeeds or has an entry to append. *)
Lemma success_or_failure oracle (queue : list (string * list (string * cell))) :
  length (filter (λ item, (download_file oracle item.1 item.2).2 = true) queue)
  + length (omap (failure_entry oracle) queue)
  = length queue.
Proof.
  induction queue as [|[i row] rest IH]; [done|].
  rewrite filter_cons.
  change (omap (failure_entry oracle) ((i, row) :: rest))
    with (match failure_entry oracle (i, row) with
          | Some y => y :: omap (failure_entry oracle) rest
          | None => omap (failure_entry oracle) rest
          end).
  assert (((download_file oracle i row).2 = true
           ∧ failure_entry oracle (i, row) = None)
          ∨ ((download_file oracle i row).2 = false
             ∧ ∃ y, failure_entry oracle (i, row) = Some y)) as Hhead.
  { unfold failure_entry, download_file. cbn [fst snd].
    destruct (oracle i (choose_url row)); cbn [snd]; eauto. }
  cbn [fst snd].
  destruct Hhead as [[Hs ->]|[Hs [y ->]]];
    destruct (decide _) as [Hd|Hd]; cbn [length]; try congruence; lia.
Qed.

(** C1. When [download_pdfs] has returned, every item of the queue has been
    dispatched, once and in queue order, nothing is pending and every thread
    has ended, and every item has left its outcome: the file of its
    identifier when the fetch succeeded, and otherwise its identifier and its
    message in [download_errors]. The list holds the identifier and the
    message of each failed item and nothing else, so that successes and
    failures together are as many as the items. The status report then made
    has one row per item, in queue order and under the item's identifier,
    which says "Downloaded" for every item that succeeded: as many rows as
    items, every identifier present, none more often than in the queue. *)
Theorem C1_one_outcome_per_dispatched_item C oracle q dir s :
  rtc (step C oracle) (start (r_rows q) dir []) s →
  pc s = AtDone →
  let dir' := (shared s).1 in
  let download_errors := (shared s).2 in
  let report := new_output_df q download_errors dir' in
  (t_name <$> threads s = r_index q ∧ pending s = []
   ∧ alive_count (threads s) = 0)
  ∧ Forall2
      (λ item r,
         field "Report ID" r = Text item.1
         ∧ match oracle item.1 (choose_url item.2) with
           | Fetched _ =>
               (download_file oracle item.1 item.2).2 = true
               ∧ pdf_exists dir' item.1 = true
               ∧ r = status_row item.1 "Downloaded" ""
           | RequestError e =>
               (download_file oracle item.1 item.2).2 = false
               ∧ item.1 ∈ download_errors
               ∧ "Network error: " +:+ e ∈ download_errors
           | OtherError e | WriteError _ e =>
               (download_file oracle item.1 item.2).2 = false
               ∧ item.1 ∈ download_errors
               ∧ "Unexpected error: " +:+ e ∈ download_errors
           end)
      (r_rows q) (rows report)
  ∧ download_errors ≡ₚ paired (omap (failure_entry oracle) (r_rows q))
  ∧ 2 * length (filter (λ item, (download_file oracle item.1 item.2).2 = true)
                       (r_rows q))
    + length download_errors
    = 2 * r_len q
  ∧ report_ids report = Text <$> r_index q
  ∧ length (rows report) = r_len q
  ∧ ∀ i, length (records_of i report)
         = length (filter (λ j, j = i) (r_index q)).
Proof.
  intros Hrun Hpc dir' download_errors report.
  destruct (dispatched_reachable C oracle (r_rows q) dir [] s Hrun)
    as (Hq & Hpend & Hdone).
  assert (pending s = []) as Hnil.
  { destruct Hpend as [Hp|[Hp|Hp]]; [congruence|congruence|exact Hp]. }
  assert (download_pdfs C oracle (r_rows q) dir [] dir' download_errors)
    as Hreturn.
  { exists (threads s). unfold dir', download_errors.
    destruct s as [pend ts [d e] p]. cbn in Hpc, Hnil |- *. by subst. }
  destruct (download_pdfs_errors C oracle _ _ _ _ _ Hreturn)
    as (added & Hadded & Hperm).
  cbn [app] in Hadded. subst added.
  destruct (download_pdfs_files C oracle _ _ _ _ _ Hreturn) as [Hdom _].
  destruct (one_status_row_per_item q download_errors dir')
    as (Hids & Hlen & Hcount).
  assert (∀ item m, item ∈ r_rows q →
            failure_entry oracle item = Some (item.1, m) →
            item.1 ∈ download_errors ∧ m ∈ download_errors) as Hfailed.
  { intros item m Hin Hf.
    assert ((item.1, m) ∈ omap (failure_entry oracle) (r_rows q)) as Hentry.
    { apply list_elem_of_omap. by exists item. }
    rewrite Hperm, !elem_of_paired. split.
    - left. by apply (list_elem_of_fmap_2 fst) in Hentry.
    - right. by apply (list_elem_of_fmap_2 snd) in Hentry. }
  split; [|split; [|split_and!]].
  - rewrite Hnil, app_nil_r in Hq. split_and!; [exact Hq|exact Hnil|].
    by apply Hdone.
  - unfold report, new_output_df, r_index. cbn [rows].
    rewrite <- list_fmap_compose. apply Forall2_fmap_r.
    apply Forall_Forall2_diag, Forall_forall. intros item Hin.
    unfold compose. split; [apply output_row_id|].
    pose proof (Hfailed item) as Hf. unfold failure_entry in Hf.
    unfold download_file.
    destruct (oracle item.1 (choose_url item.2)) as [e|e|w e|c] eqn:Hfetch;
      cbn [snd].
    + split; [done|]. by apply Hf.
    + split; [done|]. by apply Hf.
    + split; [done|]. by apply Hf.
    + assert (pdf_exists dir' item.1 = true) as Hfile.
      { apply pdf_exists_true, Hdom. right. exists item.
        by rewrite Hfetch. }
      split; [done|]. split; [done|]. unfold output_row. by rewrite Hfile.
  - exact Hperm.
  - rewrite Hperm, length_paired.
    pose proof (success_or_failure oracle (r_rows q)) as Hsum.
    unfold r_len. lia.
  - exact Hids.
  - exact Hlen.
  - exact Hcount.
Qed.

Lemma C1_one_outcome_per_dispatched_item_witness :
  let oracle := λ (i : string) (_ : cell),
                  if bool_decide (i = "B") then Fetched "%PDF-1.4"
                  else RequestError "timed out" in
  let row := [("Pdf_URL", Text "http://host/x.pdf")] in
  let q := mkReports ["Pdf_URL"] [("A", row); ("B", row)] in
  let s := mkOrch []
             [mkThread "A" None; mkThread "B" None]
             (<["B.pdf" := "%PDF-1.4"]> (<["B.pdf" := ""]> ∅),
              ["A"; "Network error: timed out"])
             AtDone in
  let dir' := (shared s).1 in
  let download_errors := (shared s).2 in
  let report := new_output_df q download_errors dir' in
  (t_name <$> threads s = r_index q ∧ pending s = []
   ∧ alive_count (threads s) = 0)
  ∧ Forall2
      (λ item r,
         field "Report ID" r = Text item.1
         ∧ match oracle item.1 (choose_url item.2) with
           | Fetched _ =>
               (download_file oracle item.1 item.2).2 = true
               ∧ pdf_exists dir' item.1 = true
               ∧ r = status_row item.1 "Downloaded" ""
           | RequestError e =>
               (download_file oracle item.1 item.2).2 = false
               ∧ item.1 ∈ download_errors
               ∧ "Network error: " +:+ e ∈ download_errors
           | OtherError e | WriteError _ e =>
               (download_file oracle item.1 item.2).2 = false
               ∧ item.1 ∈ download_errors
               ∧ "Unexpected error: " +:+ e ∈ download_errors
           end)
      (r_rows q) (rows report)
  ∧ download_errors ≡ₚ paired (omap (failure_entry oracle) (r_rows q))
  ∧ 2 * length (filter (λ item, (download_file oracle item.1 item.2).2 = true)
                       (r_rows q))
    + length download_errors
    = 2 * r_len q
  ∧ report_ids report = Text <$> r_index q
  ∧ length (rows report) = r_len q
  ∧ ∀ i, length (records_of i report)
         = length (filter (λ j, j = i) (r_index q)).
Proof.
  intros oracle row q s.
  apply (C1_one_outcome_per_dispatched_item MAX_CONCURRENT_THREADS oracle q ∅ s);
    [|reflexivity].
  set (m := "Network error: timed out").
  set (body := "%PDF-1.4").
  unfold start, s.
  eapply rtc_l; [left; apply (spawn_next oracle "A" row [("B", row)] [])|].
  eapply rtc_l; [right; left; apply (poll_pass _ _ _ _ 1); [done|]|].
  { unfold MAX_CONCURRENT_THREADS. lia. }
  eapply rtc_l; [left; apply (spawn_next oracle "B" row [] _)|].
  eapply rtc_l.
  { right; right.
    apply (worker_effect [] [] "A" (AppendError "A") [AppendError m]
             [mkThread "B" (Some [OpenFile "B.pdf"; WriteFile "B.pdf" body])]
             (∅, []) AtPoll). }
  eapply rtc_l.
  { right; right.
    apply (worker_effect [] [mkThread "A" (Some [AppendError m])] "B"
             (OpenFile "B.pdf") [WriteFile "B.pdf" body] []
             (∅, ["A"]) AtPoll). }
  eapply rtc_l.
  { right; right.
    apply (worker_effect [] [] "A" (AppendError m) []
             [mkThread "B" (Some [WriteFile "B.pdf" body])]
             (<["B.pdf" := ""]> ∅, ["A"]) AtPoll). }
  eapply rtc_l.
  { right; right.
    apply (worker_effect [] [mkThread "A" (Some [])] "B"
             (WriteFile "B.pdf" body) [] []
             (<["B.pdf" := ""]> ∅, ["A"; m]) AtPoll). }
  eapply rtc_l.
  { right; right.
    apply (worker_exit [] [] "A" [mkThread "B" (Some [])]
             (<["B.pdf" := body]> (<["B.pdf" := ""]> ∅), ["A"; m]) AtPoll). }
  eapply rtc_l.
  { right; right.
    apply (worker_exit [] [mkThread "A" None] "B" []
             (<["B.pdf" := body]> (<["B.pdf" := ""]> ∅), ["A"; m]) AtPoll). }
  eapply rtc_l; [right; left; apply (poll_pass _ _ _ _ 0); [done|]|].
  { unfold MAX_CONCURRENT_THREADS. lia. }
  eapply rtc_l; [right; left; apply loop_exit|].
  apply rtc_once. right; left. by apply join_done.
Defined.

(** ** The queue [main] builds *)

Lemma r_index_loc_labels df labels i :
  i ∈ r_index (loc_labels df labels) → i ∈ labels ∧ i ∈ r_index df.
Proof.
  unfold r_index, loc_labels. cbn [r_rows].
  intros (r & -> & Hr)%list_elem_of_fmap.
  apply list_elem_of_In, in_flat_map in Hr as (l & Hl & Hr).
  apply list_elem_of_In in Hl, Hr.
  apply list_elem_of_filter in Hr as [<- Hr]. split; [done|].
  by apply list_elem_of_fmap_2.
Qed.

Lemma r_index_build_queue reports_data dir i :
  i ∈ r_index (build_queue reports_data dir) →
  i ∈ r_index reports_data ∧ i ∉ get_existing_downloads dir.
Proof.
  unfold build_queue. intros Hi.
  assert (i ∈ r_index (loc_labels reports_data
            (filter (λ idx, idx ∉ get_existing_downloads dir)
                    (r_index reports_data)))) as Hi'.
  { case_bool_decide; [|done]. unfold r_index in Hi |- *. cbn [r_rows] in Hi.
    apply list_elem_of_fmap in Hi as (r & -> & Hr). apply list_elem_of_fmap_2.
    by eapply subseteq_take. }
  apply r_index_loc_labels in Hi' as [Hl ?]. split; [done|].
  by apply list_elem_of_filter in Hl as [? _].
Qed.

(** A report whose file the scanner lists is not in the queue. *)
Lemma build_queue_prunes reports_data dir i :
  listable i = true → pdf_exists dir i = true →
  i ∉ r_index (build_queue reports_data dir).
Proof.
  intros Hl He Hi. apply r_index_build_queue in Hi as [_ Hi]. apply Hi.
  by apply elem_of_get_existing_downloads.
Qed.

Lemma main_inv oracle d d' df :
  main oracle d d' → reports_file d = Stored df → url_columns_present df →
  ∃ dir' errors',
    download_phase oracle (build_queue (valid_reports df) (downloads d))
      (downloads d) dir' errors'
    ∧ d' = report_phase (build_queue (valid_reports df) (downloads d))
             (valid_reports df) errors' dir' d.
Proof.
  intros Hmain Hdf Hcols. destruct Hmain as [d Hno|d df0 Hdf0 Hno|d df0 dir' errors' Hdf0 _ Hdl].
  - by destruct (Hno df).
  - rewrite Hdf in Hdf0. by simplify_eq.
  - rewrite Hdf in Hdf0. simplify_eq. eauto.
Qed.

(** The records the written status table holds for an identifier that is
    not in the queue: what the previous table held, and nothing new. *)
Lemma records_of_not_queued q e dir' i (f : file DataFrame) :
  i ∉ r_index q →
  records_of i (create_output_report q e dir' f) =
  match f with
  | Stored prev =>
      reindex (columns (create_output_report q e dir' f))
        <$> option_list (last (records_of i prev))
  | _ => []
  end.
Proof.
  intros Hi. destruct f as [| |prev].
  - by apply records_of_new_absent.
  - by apply records_of_new_absent.
  - rewrite records_of_merged, records_of_new_absent by done.
    by rewrite app_nil_r.
Qed.

(** The same over a run of [main]. *)
Lemma main_records_of_not_queued oracle d d' df i :
  main oracle d d' →
  reports_file d = Stored df →
  url_columns_present df →
  i ∉ r_index (build_queue (valid_reports df) (downloads d)) →
  ∃ t, status_file d' = Stored t
       ∧ records_of i t =
         match status_file d with
         | Stored prev =>
             reindex (columns t) <$> option_list (last (records_of i prev))
         | _ => []
         end.
Proof.
  intros Hmain Hdf Hcols Hq.
  destruct (main_inv oracle d d' df Hmain Hdf Hcols) as (dir' & errors' & _ & ->).
  eexists. split; [reflexivity|]. by apply records_of_not_queued.
Qed.

(** C3, as the code has it. A report whose file is already in the download
    directory (under a name the scanner lists) is left out of the queue and
    gets no status record in this run: the written table holds for it what
    the previous table held, its last record there, and nothing when there
    was no readable previous table. *)
Theorem C3_existing_file_gets_no_new_record oracle d d' df i :
  main oracle d d' →
  reports_file d = Stored df →
  url_columns_present df →
  listable i = true →
  pdf_exists (downloads d) i = true →
  (i ∉ r_index (build_queue (valid_reports df) (downloads d)))
  ∧ ∃ t, status_file d' = Stored t
         ∧ records_of i t =
           match status_file d with
           | Stored prev =>
               reindex (columns t) <$> option_list (last (records_of i prev))
           | _ => []
           end.
Proof.
  intros Hmain Hdf Hcols Hl He.
  pose proof (build_queue_prunes (valid_reports df) (downloads d) i Hl He) as Hq.
  split; [exact Hq|]. by eapply main_records_of_not_queued.
Qed.

(** ** Running the status reconciler again *)

Lemma fmap_fixed {A} (f : A → A) (l : list A) :
  (∀ x, x ∈ l → f x = x) → f <$> l = l.
Proof.
  induction l as [|x l IH]; intros Hf; [done|]. cbn. f_equal.
  - apply Hf. by left.
  - apply IH. intros y Hy. apply Hf. by right.
Qed.

Lemma reindex_keep_last col cols l :
  reindex cols <$> keep_last col (reindex cols <$> l)
  = keep_last col (reindex cols <$> l).
Proof.
  apply fmap_fixed. intros r Hr. apply keep_last_elem_of in Hr.
  apply list_elem_of_fmap in Hr as (x & -> & _). apply reindex_idemp.
Qed.

Lemma keep_last_twice col l :
  NoDup (field col <$> l) → keep_last col (l ++ l) = l.
Proof.
  intros Hnd. rewrite keep_last_app, (keep_last_id col l Hnd).
  rewrite filter_none; [done|].
  intros r Hr Hn. apply Hn. by apply list_elem_of_fmap_2.
Qed.

Lemma create_output_report_again_stored q e d prev :
  create_output_report q e d (Stored (create_output_report q e d (Stored prev)))
  = create_output_report q e d (Stored prev).
Proof.
  rewrite (create_output_report_stored q e d (create_output_report _ _ _ _)).
  rewrite (create_output_report_stored q e d prev). cbn [columns rows].
  set (cols := extend_columns (columns prev) _).
  rewrite (extend_columns_subseteq cols).
  2:{ intros c Hc. apply elem_of_extend_columns. by right. }
  f_equal. rewrite (fmap_app _ (keep_last _ _)), reindex_keep_last.
  rewrite fmap_app. apply keep_last_merge_idemp.
Qed.

Lemma create_output_report_again_new q e d :
  NoDup (r_index q) →
  create_output_report q e d (Stored (new_output_df q e d)) = new_output_df q e d.
Proof.
  intros Hnd. rewrite create_output_report_stored.
  unfold new_output_df. cbn [columns rows].
  change (extend_columns _ _) with ["Report ID"; "Status"; "Error Message"].
  f_equal. rewrite (fmap_fixed (reindex _)).
  - apply keep_last_twice. rewrite <- list_fmap_compose.
    rewrite (list_fmap_ext _ Text (r_index q)).
    + apply NoDup_fmap_2; [|done]. by intros ?? [= ->].
    + intros ? i _. apply output_row_id.
  - intros r Hr. assert (r ∈ output_row d e <$> r_index q) as Hr'
      by (apply elem_of_app in Hr; tauto).
    apply list_elem_of_fmap in Hr' as (i & -> & _).
    apply reindex_id; [by_computation|apply output_row_keys].
Qed.

(** ** Python dicts *)

Lemma dict_set_keys k v d c : c ∈ (dict_set k v d).*1 ↔ c = k ∨ c ∈ d.*1.
Proof.
  induction d as [|[k' v'] d IH]; cbn.
  - set_solver.
  - case_bool_decide; cbn; set_solver.
Qed.

Lemma dict_get_set_eq k v d : dict_get k (dict_set k v d) = Some v.
Proof.
  unfold dict_get. induction d as [|[k' v'] d IH]; cbn.
  - by rewrite bool_decide_eq_true_2.
  - case_bool_decide as Hk; cbn.
    + by rewrite bool_decide_eq_true_2.
    + by rewrite bool_decide_eq_false_2.
Qed.

Lemma dict_get_set_ne k k' v d :
  k' ≠ k → dict_get k' (dict_set k v d) = dict_get k' d.
Proof.
  intros Hne. unfold dict_get. induction d as [|[k0 v0] d IH]; cbn.
  - by rewrite bool_decide_eq_false_2.
  - case_bool_decide as Hk; cbn.
    + subst. by rewrite !bool_decide_eq_false_2.
    + case_bool_decide; [done|apply IH].
Qed.

(** ** The records [update_metadata] makes *)

Section CopyLoop.
Variables (cols : list string) (reports_data : Reports) (report_id : string).

Lemma copy_loop_keys cs rec c :
  c ∈ (foldl (copy_column cols reports_data report_id) rec cs).*1 ↔
  c ∈ rec.*1 ∨ (c ∈ cs ∧ c ∈ cols ∧ c ∉ [ID_COLUMN; "pdf_downloaded"]).
Proof.
  revert rec. induction cs as [|c0 cs IH]; intros rec; cbn [foldl].
  - set_solver.
  - rewrite IH. unfold copy_column at 1. case_bool_decide as Hc.
    + rewrite dict_set_keys. set_solver.
    + set_solver.
Qed.

Lemma copy_loop_untouched cs rec c :
  (c ∈ cs → c ∈ cols → c ∈ [ID_COLUMN; "pdf_downloaded"]) →
  dict_get c (foldl (copy_column cols reports_data report_id) rec cs)
  = dict_get c rec.
Proof.
  revert rec. induction cs as [|c0 cs IH]; intros rec Hc; cbn [foldl]; [done|].
  rewrite IH by set_solver. unfold copy_column. case_bool_decide as H0; [|done].
  apply dict_get_set_ne. intros ->. destruct H0 as [H1 H2]. apply H2, Hc; set_solver.
Qed.

Lemma copy_loop_copied cs rec c :
  c ∈ cs → c ∈ cols → c ∉ [ID_COLUMN; "pdf_downloaded"] →
  dict_get c (foldl (copy_column cols reports_data report_id) rec cs)
  = Some (loc reports_data report_id c).
Proof.
  revert rec. induction cs as [|c0 cs IH]; intros rec Hin Hc Hx; cbn [foldl].
  - by apply not_elem_of_nil in Hin.
  - destruct (decide (c ∈ cs)) as [Hcs|Hcs]; [by apply IH|].
    assert (c0 = c) as -> by set_solver.
    rewrite copy_loop_untouched by done. unfold copy_column.
    rewrite bool_decide_eq_true_2 by done. apply dict_get_set_eq.
Qed.
End CopyLoop.

Lemma new_record_unfold cols reports_data files report_id :
  new_record cols reports_data files report_id =
  let record :=
    [(ID_COLUMN, Text report_id);
     ("pdf_downloaded",
      Text (if bool_decide (report_id ∈ files) then "Yes" else "No"))] in
  if bool_decide (report_id ∈ r_index reports_data) then
    foldl (copy_column cols reports_data report_id)
          record (r_columns reports_data)
  else record.
Proof. reflexivity. Qed.

(** The identifier and the flag of a record. *)
Lemma new_record_id cols reports_data files report_id :
  field ID_COLUMN (new_record cols reports_data files report_id)
  = Text report_id.
Proof.
  rewrite new_record_unfold. cbn zeta. unfold field.
  case_bool_decide; [|done]. rewrite copy_loop_untouched; [done|].
  intros _ _. set_solver.
Qed.

Lemma new_record_flag cols reports_data files report_id :
  field "pdf_downloaded" (new_record cols reports_data files report_id)
  = Text (if bool_decide (report_id ∈ files) then "Yes" else "No").
Proof.
  rewrite new_record_unfold. cbn zeta. unfold field.
  case_bool_decide; [|done]. rewrite copy_loop_untouched; [done|].
  intros _ _. set_solver.
Qed.

(** The keys of a record: the two fixed ones, and columns of the source
    table that the metadata table already has, with the source's cell. *)
Lemma new_record_keys cols reports_data files report_id c :
  c ∈ (new_record cols reports_data files report_id).*1 →
  c = ID_COLUMN ∨ c = "pdf_downloaded"
  ∨ (c ∈ cols ∧ c ∈ r_columns reports_data
     ∧ field c (new_record cols reports_data files report_id)
       = loc reports_data report_id c).
Proof.
  rewrite new_record_unfold. cbn zeta. case_bool_decide.
  - intros [Hc|(Hc & Hcols & Hx)]%copy_loop_keys.
    + cbn in Hc. set_solver.
    + right. right. split_and!; [done..|].
      unfold field. by rewrite copy_loop_copied.
  - cbn. set_solver.
Qed.

Lemma new_record_ext cols cols' reports_data files report_id :
  (∀ c, c ∉ [ID_COLUMN; "pdf_downloaded"] → c ∈ cols ↔ c ∈ cols') →
  new_record cols reports_data files report_id
  = new_record cols' reports_data files report_id.
Proof.
  intros Hc. rewrite !new_record_unfold. cbn zeta. case_bool_decide; [|done].
  generalize [(ID_COLUMN, Text report_id);
     ("pdf_downloaded",
      Text (if bool_decide (report_id ∈ files) then "Yes" else "No"))].
  induction (r_columns reports_data) as [|c cs IH]; intros rec; [done|].
  cbn [foldl]. rewrite <- IH. f_equal. unfold copy_column.
  destruct (decide (c ∈ [ID_COLUMN; "pdf_downloaded"])) as [Hx|Hx].
  - by rewrite !bool_decide_eq_false_2 by tauto.
  - specialize (Hc c Hx). destruct (decide (c ∈ cols)).
    + by rewrite !bool_decide_eq_true_2 by tauto.
    + by rewrite !bool_decide_eq_false_2 by tauto.
Qed.

(** ** The metadata table *)

Lemma elem_of_record_columns acc (records : list (list (string * cell))) c :
  c ∈ foldl (λ acc r, extend_columns acc (r.*1)) acc records ↔
  c ∈ acc ∨ ∃ r, r ∈ records ∧ c ∈ r.*1.
Proof.
  revert acc. induction records as [|r rs IH]; intros acc; cbn [foldl].
  - split; [auto|]. intros [?|(r & Hr & _)]; [done|].
    by apply not_elem_of_nil in Hr.
  - rewrite IH, elem_of_extend_columns. split.
    + intros [[?|?]|(r' & ? & ?)]; [by left|right..].
      * exists r. split; [by left|done].
      * exists r'. split; [by right|done].
    + intros [?|(r' & [->|?]%elem_of_cons & ?)]; [by left; left|by left; right|].
      right. by exists r'.
Qed.

Lemma columns_of_records records c :
  c ∈ columns (DataFrame_of_records records) ↔ ∃ r, r ∈ records ∧ c ∈ r.*1.
Proof.
  unfold DataFrame_of_records. cbn [columns]. rewrite elem_of_record_columns.
  split; [|by right]. intros [Hc|?]; [|done]. by apply not_elem_of_nil in Hc.
Qed.

(** Merging the same frame once more changes nothing. *)
Lemma merge_again col (M N T : DataFrame) :
  drop_duplicates col (concat M N) = Some T →
  drop_duplicates col (concat T N) = Some T.
Proof.
  unfold drop_duplicates, concat. cbn [columns rows].
  case_bool_decide as Hcol; [|done]. intros [= <-]. cbn [columns rows].
  set (cols := extend_columns (columns M) (columns N)) in *.
  rewrite (extend_columns_subseteq cols).
  2:{ intros c Hc. apply elem_of_extend_columns. by right. }
  rewrite bool_decide_eq_true_2 by done. do 2 f_equal.
  rewrite (fmap_app _ (keep_last _ _)), reindex_keep_last.
  rewrite fmap_app. apply keep_last_merge_idemp.
Qed.

(** The records made for a queue do not change when the metadata table
    gains the columns of these very records. *)
Lemma new_records_merged_columns cols q reports_data dir :
  new_records
    (extend_columns cols
       (columns (DataFrame_of_records (new_records cols q reports_data dir))))
    q reports_data dir
  = new_records cols q reports_data dir.
Proof.
  unfold new_records at 1 3. apply list_fmap_ext. intros _ i _.
  apply new_record_ext. intros c Hx. rewrite elem_of_extend_columns.
  split; [|by left]. intros [?|Hc]; [done|].
  apply columns_of_records in Hc as (r & Hr & Hc).
  apply list_elem_of_fmap in Hr as (j & -> & _).
  apply new_record_keys in Hc as [->|[->|(? & _)]]; [|..|done];
    exfalso; apply Hx; set_solver.
Qed.

Lemma metadata_after_again q reports_data dir f :
  metadata_after q reports_data dir (metadata_after q reports_data dir f)
  = metadata_after q reports_data dir f.
Proof.
  unfold metadata_after at 2 3. unfold update_metadata.
  destruct (load_metadata f) as [M|] eqn:Hload; cbn [snd].
  - destruct (drop_duplicates ID_COLUMN _) as [T|] eqn:Hdd; cbn [after_write].
    + unfold metadata_after, update_metadata. cbn [load_metadata snd].
      assert (columns T
              = extend_columns (columns M)
                  (columns (DataFrame_of_records
                              (new_records (columns M) q reports_data dir))))
        as ->.
      { unfold drop_duplicates in Hdd. case_bool_decide; [|done].
        by injection Hdd as <-. }
      rewrite new_records_merged_columns.
      by rewrite (merge_again _ _ _ _ Hdd).
    + unfold metadata_after, update_metadata. by rewrite Hload, Hdd.
  - cbn [after_write]. unfold metadata_after, update_metadata. by rewrite Hload.
Qed.

(** C8. Running either reconciler a second time on the same queue, error list
    and directory writes the table the first run wrote. The status reconciler
    starts from a readable previous table, or else from a queue whose
    identifiers are distinct, as the data model has them. *)
Theorem C8_reconcilers_idempotent q reports_data download_errors dir
    (status : file DataFrame) (metadata : file DataFrame) :
  NoDup (r_index q) ∨ (∃ prev, status = Stored prev) →
  create_output_report q download_errors dir
    (Stored (create_output_report q download_errors dir status))
  = create_output_report q download_errors dir status
  ∧ metadata_after q reports_data dir (metadata_after q reports_data dir metadata)
    = metadata_after q reports_data dir metadata.
Proof.
  intros Hst. split; [|apply metadata_after_again].
  destruct status as [| |prev].
  - destruct Hst as [Hnd|[? [=]]]. by apply create_output_report_again_new.
  - destruct Hst as [Hnd|[? [=]]]. by apply create_output_report_again_new.
  - apply create_output_report_again_stored.
Qed.

Lemma C8_reconcilers_idempotent_witness :
  let row u := [("Pdf_URL", Text u); ("Title", Text "Annual report")] in
  let reports := mkReports ["Pdf_URL"; "Title"]
                   [("A", row "http://a"); ("B", row "http://b")] in
  let dir : gmap string string := {[ "A.pdf" := "%PDF" ]} in
  let errors := ["B"; "Network error: timed out"] in
  let metadata := Stored (mkDataFrame ["BRnum"; "Title"; "pdf_downloaded"]
                            [[("BRnum", Text "A"); ("Title", Text "Old title");
                              ("pdf_downloaded", Text "No")]]) in
  create_output_report reports errors dir
    (Stored (create_output_report reports errors dir Missing))
  = create_output_report reports errors dir Missing
  ∧ metadata_after reports reports dir (metadata_after reports reports dir metadata)
    = metadata_after reports reports dir metadata.
Proof.
  intros row reports dir errors metadata.
  apply (C8_reconcilers_idempotent reports reports errors dir Missing metadata).
  left. by_computation.
Defined.

Lemma new_record_fixed_keys cols reports_data files report_id :
  ID_COLUMN ∈ (new_record cols reports_data files report_id).*1
  ∧ "pdf_downloaded" ∈ (new_record cols reports_data files report_id).*1.
Proof.
  rewrite new_record_unfold. cbn zeta. case_bool_decide.
  - rewrite !copy_loop_keys. cbn. set_solver.
  - cbn. set_solver.
Qed.

Lemma new_record_copied cols reports_data files report_id c :
  report_id ∈ r_index reports_data →
  c ∈ r_columns reports_data → c ∈ cols →
  c ∉ [ID_COLUMN; "pdf_downloaded"] →
  c ∈ (new_record cols reports_data files report_id).*1
  ∧ field c (new_record cols reports_data files report_id)
    = loc reports_data report_id c.
Proof.
  intros Hi Hc Hcols Hx. rewrite new_record_unfold. cbn zeta.
  rewrite bool_decide_eq_true_2 by done. split.
  - apply copy_loop_keys. by right.
  - unfold field. by rewrite copy_loop_copied.
Qed.

(** What [update_metadata] writes for an identifier of the queue: one row,
    with the flag the scan of the directory gives, and with the cells of the
    source table under the columns the metadata table already had; and the
    written table has no column beyond those and the two fixed ones. *)
Lemma update_metadata_records q reports_data dir f M i :
  load_metadata f = Some M →
  i ∈ r_index q →
  ∃ T r,
    (update_metadata q reports_data dir f).2 = Some T
    ∧ filter (λ r, field ID_COLUMN r = Text i) (rows T) = [r]
    ∧ field "pdf_downloaded" r
      = Text (if bool_decide (i ∈ get_existing_downloads dir)
              then "Yes" else "No")
    ∧ (∀ c, c ∈ columns T →
            c = ID_COLUMN ∨ c = "pdf_downloaded" ∨ c ∈ columns M)
    ∧ (∀ c, i ∈ r_index reports_data → c ∈ r_columns reports_data →
            c ∈ columns M → c ∉ [ID_COLUMN; "pdf_downloaded"] →
            field c r = loc reports_data i c).
Proof.
  intros Hload Hi. unfold update_metadata. rewrite Hload. cbn [snd].
  set (recs := new_records (columns M) q reports_data dir).
  set (rec := new_record (columns M) reports_data (get_existing_downloads dir) i).
  assert (rec ∈ recs) as Hrec by (by apply list_elem_of_fmap_2).
  set (ND := DataFrame_of_records recs).
  assert (∀ c, c ∈ rec.*1 → c ∈ columns ND) as HcN.
  { intros c Hc. apply columns_of_records. by exists rec. }
  assert (ID_COLUMN ∈ columns ND) as HidN
    by apply HcN, new_record_fixed_keys.
  set (cols := extend_columns (columns M) (columns ND)).
  assert (∀ c, c ∈ columns ND → c ∈ cols) as Hcols.
  { intros c Hc. apply elem_of_extend_columns. by right. }
  unfold drop_duplicates, concat. cbn [columns rows]. fold cols.
  rewrite bool_decide_eq_true_2 by (by apply Hcols).
  exists (mkDataFrame cols
            (keep_last ID_COLUMN (reindex cols <$> (rows M ++ rows ND)))),
         (reindex cols (reindex (columns ND) rec)).
  assert (∀ c, c ∈ rec.*1 →
               field c (reindex cols (reindex (columns ND) rec)) = field c rec)
    as Hfield.
  { intros c Hc. rewrite !field_reindex_in; auto. }
  split_and!.
  - done.
  - cbn [rows]. rewrite keep_last_filter, filter_fmap.
    rewrite (list_filter_iff _ (λ r, field ID_COLUMN r = Text i)).
    2:{ intros r. rewrite field_reindex_in; [done|by apply Hcols]. }
    rewrite filter_app, fmap_last, last_app.
    assert (last (filter (λ r, field ID_COLUMN r = Text i) (rows ND))
            = Some (reindex (columns ND) rec)) as ->; [|done].
    change (rows ND) with (reindex (columns ND) <$> recs).
    destruct (last _) as [x|] eqn:Hl.
    + apply last_Some_elem_of, list_elem_of_filter in Hl as [Hid Hx].
      apply list_elem_of_fmap in Hx as (r0 & -> & Hr0).
      apply list_elem_of_fmap in Hr0 as (j & -> & _).
      rewrite field_reindex_in, new_record_id in Hid by done.
      by simplify_eq.
    + apply last_None in Hl.
      assert (reindex (columns ND) rec
              ∈ filter (λ r, field ID_COLUMN r = Text i)
                  (reindex (columns ND) <$> recs)) as Hin.
      { apply list_elem_of_filter. split; [|by apply list_elem_of_fmap_2].
        rewrite field_reindex_in by done. apply new_record_id. }
      rewrite Hl in Hin. by apply not_elem_of_nil in Hin.
  - rewrite Hfield by apply new_record_fixed_keys. apply new_record_flag.
  - cbn [columns]. intros c [Hc|Hc]%elem_of_extend_columns; [auto|].
    apply columns_of_records in Hc as (r0 & Hr0 & Hc).
    apply list_elem_of_fmap in Hr0 as (j & -> & _).
    apply new_record_keys in Hc. tauto.
  - intros c Hir Hc HcM Hx.
    destruct (new_record_copied (columns M) reports_data
                (get_existing_downloads dir) i c Hir Hc HcM Hx) as [Hk Hv].
    by rewrite Hfield.
Qed.

(** ** Complete runs exist *)

Section CompleteRuns.
Variable C : nat.
Variable oracle : string → cell → fetch_result.
Hypothesis C_pos : 1 ≤ C.

Lemma worker_runs q ts1 name effs ts2 sh p :
  rtc (step C oracle)
    (mkOrch q (ts1 ++ mkThread name (Some effs) :: ts2) sh p)
    (mkOrch q (ts1 ++ mkThread name None :: ts2) (run_effects effs sh) p).
Proof.
  revert sh. induction effs as [|eff effs IH]; intros sh.
  - apply rtc_once. right; right. apply worker_exit.
  - eapply rtc_l; [|apply IH]. right; right. apply worker_effect.
Qed.

Lemma controller_runs queue ts sh :
  alive_count ts = 0 →
  ∃ ts', rtc (step C oracle) (mkOrch queue ts sh AtDispatch)
             (mkOrch [] ts' (run_in_turn oracle queue sh) AtDone).
Proof.
  revert ts sh. induction queue as [|[i row] rest IH]; intros ts sh Hts.
  - exists ts. eapply rtc_l; [right; left; apply loop_exit|].
    apply rtc_once. right; left. apply join_done. lia.
  - assert (alive_count (ts ++ [mkThread i None]) = 0) as Hdead
      by (rewrite alive_count_app, alive_count_ended; lia).
    destruct (IH (ts ++ [mkThread i None])
                (run_effects (download_file oracle i row).1 sh) Hdead)
      as [ts' Hrun].
    exists ts'. eapply rtc_l; [left; apply spawn_next|].
    eapply rtc_trans; [apply worker_runs|].
    eapply rtc_l; [|exact Hrun]. right; left.
    apply (poll_pass C _ _ _ 0); lia.
Qed.

Lemma download_pdfs_in_turn queue dir errs :
  download_pdfs C oracle queue dir errs
    (run_in_turn oracle queue (dir, errs)).1
    (run_in_turn oracle queue (dir, errs)).2.
Proof.
  destruct (controller_runs queue [] (dir, errs) eq_refl) as [ts Hrun].
  exists ts. by destruct (run_in_turn oracle queue (dir, errs)).
Qed.
End CompleteRuns.

(** [main] has a run from every disk that holds a readable source table with
    the two URL columns. *)
Lemma main_in_turn oracle d df :
  reports_file d = Stored df → url_columns_present df →
  let q := build_queue (valid_reports df) (downloads d) in
  let st := run_in_turn oracle (r_rows q) (downloads d, []) in
  main oracle d (report_phase q (valid_reports df) st.2 st.1 d).
Proof.
  intros Hdf Hcols q st. apply main_reports; [done..|].
  unfold download_phase. fold q. case_bool_decide as Hlen.
  - apply download_pdfs_in_turn. unfold MAX_CONCURRENT_THREADS. lia.
  - unfold st. destruct (r_rows q) eqn:Hq; [done|].
    unfold r_len in Hlen. rewrite Hq in Hlen. cbn in Hlen. lia.
Qed.

(** ** A run of [main] over a file that is already there *)

Lemma C3_existing_file_gets_no_new_record_witness :
  let oracle := λ (_ : string) (_ : cell), Fetched "%PDF-1.4" in
  let row u := [("Pdf_URL", Text u); ("Report Html Address", NaN)] in
  let df := mkReports ["Pdf_URL"; "Report Html Address"]
              [("X2", row "http://host/x2.pdf");
               ("Y1", row "http://host/y1.pdf")] in
  let d := mkDisk (Stored df) {[ "X2.pdf" := "%PDF-1.4" ]}
             Missing Missing Missing in
  let q := build_queue (valid_reports df) (downloads d) in
  let st := run_in_turn oracle (r_rows q) (downloads d, []) in
  let d' := report_phase q (valid_reports df) st.2 st.1 d in
  (("X2" : string) ∉ r_index q)
  ∧ ∃ t, status_file d' = Stored t
         ∧ records_of "X2" t =
           match status_file d with
           | Stored prev =>
               reindex (columns t) <$> option_list (last (records_of "X2" prev))
           | _ => []
           end.
Proof.
  intros oracle row df d q st d'.
  apply (C3_existing_file_gets_no_new_record oracle d d' df "X2").
  - apply (main_in_turn oracle d df); [reflexivity|split; by_computation].
  - reflexivity.
  - split; by_computation.
  - reflexivity.
  - by vm_compute.
Defined.

(** C3 as stated fails. The directory holds [X2.pdf], the source table lists
    [X2] and [Y1], and there is no status table yet. [main] runs, downloads
    [Y1] alone, and every run ends with a status table that has no record for
    [X2], so none that says "Downloaded". *)
Lemma C3_no_record_for_existing_file :
  let oracle := λ (_ : string) (_ : cell), Fetched "%PDF-1.4" in
  let row u := [("Pdf_URL", Text u); ("Report Html Address", NaN)] in
  let df := mkReports ["Pdf_URL"; "Report Html Address"]
              [("X2", row "http://host/x2.pdf");
               ("Y1", row "http://host/y1.pdf")] in
  let d := mkDisk (Stored df) {[ "X2.pdf" := "%PDF-1.4" ]}
             Missing Missing Missing in
  r_index (build_queue (valid_reports df) (downloads d)) = ["Y1"]
  ∧ (∃ d', main oracle d d'
           ∧ status_file d'
             = Stored (mkDataFrame ["Report ID"; "Status"; "Error Message"]
                         [status_row "Y1" "Downloaded" ""]))
  ∧ ∀ d', main oracle d d' →
      ∃ t, status_file d' = Stored t
           ∧ ¬ ∃ r, r ∈ rows t ∧ field "Report ID" r = Text "X2".
Proof.
  intros oracle row df d.
  assert (url_columns_present df) as Hcols by (split; by_computation).
  assert (r_index (build_queue (valid_reports df) (downloads d)) = ["Y1"])
    as Hq by (by vm_compute).
  split_and!.
  - exact Hq.
  - eexists. split; [by apply (main_in_turn oracle d df)|].
    vm_compute. reflexivity.
  - intros d' Hmain.
    destruct (main_records_of_not_queued oracle d d' df "X2" Hmain eq_refl Hcols)
      as (t & Ht & Hrec).
    { rewrite Hq. intros Hin. apply list_elem_of_singleton in Hin.
      discriminate Hin. }
    exists t. split; [exact Ht|]. intros (r & Hr & Hid).
    assert (r ∈ records_of "X2" t) as Hin.
    { apply list_elem_of_filter. split; [exact Hid|exact Hr]. }
    rewrite Hrec in Hin. change (r ∈ []) in Hin.
    by apply not_elem_of_nil in Hin.
Qed.

(** ** The status label and the metadata flag *)

(** For an identifier that the scan can list, the label of the status record
    and the flag of the metadata record both follow the presence of the file
    as the reports are made, whatever the error list says. *)
Lemma status_and_flag_of_listable_item q reports_data download_errors dir f M i :
  load_metadata f = Some M →
  i ∈ r_index q →
  listable i = true →
  ∃ T r,
    (update_metadata q reports_data dir f).2 = Some T
    ∧ filter (λ r, field ID_COLUMN r = Text i) (rows T) = [r]
    ∧ if pdf_exists dir i
      then output_row dir download_errors i = status_row i "Downloaded" ""
           ∧ field "pdf_downloaded" r = Text "Yes"
      else field "Status" (output_row dir download_errors i) = Text "Failed"
           ∧ field "pdf_downloaded" r = Text "No".
Proof.
  intros Hload Hi Hl.
  destruct (update_metadata_records q reports_data dir f M i Hload Hi)
    as (T & r & HT & Hr & Hflag & _).
  exists T, r. split_and!; [done..|]. rewrite Hflag. unfold output_row.
  destruct (pdf_exists dir i) eqn:Hex.
  - rewrite bool_decide_eq_true_2; [done|].
    by apply elem_of_get_existing_downloads.
  - rewrite bool_decide_eq_false_2; [done|].
    rewrite elem_of_get_existing_downloads, Hex. by intros [_ ?].
Qed.

(** C9 fails on an identifier that begins with a dot. The download succeeds
    and [.a.pdf] is in the directory after the download phase, the status
    report says "Downloaded", and the metadata record says "No": the scan
    [glob("*.pdf")] in [get_existing_downloads] does not list the file. *)
Theorem C9_dot_identifier_flagged_No :
  let oracle := λ (_ : string) (_ : cell), Fetched "%PDF-1.4" in
  let row := [("Pdf_URL", Text "http://host/a.pdf");
              ("Report Html Address", NaN)] in
  let df := mkReports ["Pdf_URL"; "Report Html Address"] [(".a", row)] in
  let d := mkDisk (Stored df) ∅ Missing Missing Missing in
  ∃ d', main oracle d d'
        ∧ downloads d' !! ".a.pdf" = Some "%PDF-1.4"
        ∧ get_existing_downloads (downloads d') = []
        ∧ status_file d'
          = Stored (mkDataFrame ["Report ID"; "Status"; "Error Message"]
                      [status_row ".a" "Downloaded" ""])
        ∧ metadata_file d'
          = Stored (mkDataFrame [ID_COLUMN; "pdf_downloaded"]
                      [[(ID_COLUMN, Text ".a"); ("pdf_downloaded", Text "No")]]).
Proof.
  intros oracle row df d. eexists. split.
  - apply (main_in_turn oracle d df); [reflexivity|split; by_computation].
  - vm_compute. repeat split; reflexivity.
Qed.

(** C10 fails on an identifier that begins with a dot. The worker reports a
    failure and leaves a truncated [.a.pdf]; the status report says
    "Downloaded" with an empty message, and the metadata record says "No",
    not "Yes": the two reports test the presence of the file in two ways. *)
Theorem C10_dot_identifier_label_and_flag_differ :
  let oracle := λ (_ : string) (_ : cell),
                  WriteError "%PD" "[Errno 28] No space left on device" in
  let row := [("Pdf_URL", Text "http://host/a.pdf");
              ("Report Html Address", NaN)] in
  let df := mkReports ["Pdf_URL"; "Report Html Address"] [(".a", row)] in
  let d := mkDisk (Stored df) ∅ Missing Missing Missing in
  (download_file oracle ".a" row).2 = false
  ∧ ∃ d', main oracle d d'
          ∧ downloads d' !! ".a.pdf" = Some "%PD"
          ∧ status_file d'
            = Stored (mkDataFrame ["Report ID"; "Status"; "Error Message"]
                        [status_row ".a" "Downloaded" ""])
          ∧ metadata_file d'
            = Stored (mkDataFrame [ID_COLUMN; "pdf_downloaded"]
                        [[(ID_COLUMN, Text ".a");
                          ("pdf_downloaded", Text "No")]]).
Proof.
  intros oracle row df d. split; [reflexivity|]. eexists. split.
  - apply (main_in_turn oracle d df); [reflexivity|split; by_computation].
  - vm_compute. repeat split; reflexivity.
Qed.

(** ** The error list of a run *)

Lemma paired_app es1 es2 : paired (es1 ++ es2) = paired es1 ++ paired es2.
Proof. unfold paired. by rewrite flat_map_app. Qed.

(** When the workers run in turn, the error list holds, for each worker that
    failed and in queue order, its identifier followed by its message. *)
Lemma run_in_turn_errors oracle queue dir errs :
  (run_in_turn oracle queue (dir, errs)).2
  = errs ++ paired (omap (failure_entry oracle) queue).
Proof.
  unfold run_in_turn. revert dir errs.
  induction queue as [|[i row] rest IH]; intros dir errs.
  - cbn. by rewrite app_nil_r.
  - cbn [foldl]. change (omap (failure_entry oracle) ((i, row) :: rest))
      with (match failure_entry oracle (i, row) with
            | Some y => y :: omap (failure_entry oracle) rest
            | None => omap (failure_entry oracle) rest
            end).
    unfold failure_entry at 1, download_file. cbn [fst snd].
    destruct (oracle i (choose_url row)) as [e|e|w e|c];
      cbn [fst snd run_effects foldl apply_effect]; rewrite IH;
      change (paired (?x :: ?l)) with ([x.1; x.2] ++ paired l);
      cbn [fst snd]; by rewrite <- ?app_assoc.
Qed.

(** With two workers alive at once the appends can interleave, and the
    message looked up for the first identifier is then the second one. *)
Lemma interleaved_appends_misattribute :
  let oracle := λ (i : string) (_ : cell), RequestError ("no route to " +:+ i) in
  let row := [("Pdf_URL", Text "http://host/x.pdf")] in
  ∃ dir' errors',
    download_pdfs MAX_CONCURRENT_THREADS oracle [("A", row); ("B", row)]
      ∅ [] dir' errors'
    ∧ errors' = ["A"; "B"; "Network error: no route to A";
                 "Network error: no route to B"]
    ∧ error_message "A" errors' = "B".
Proof.
  intros oracle row. eexists _, _. split; [|split; [reflexivity|reflexivity]].
  set (ma := "Network error: no route to A").
  set (mb := "Network error: no route to B").
  exists [mkThread "A" None; mkThread "B" None]. unfold start.
  eapply rtc_l; [left; apply spawn_next|].
  eapply rtc_l; [right; left; apply (poll_pass _ _ _ _ 1); [done|]|].
  { unfold MAX_CONCURRENT_THREADS. lia. }
  eapply rtc_l; [left; apply spawn_next|].
  eapply rtc_l.
  { right; right.
    apply (worker_effect [] [] "A" (AppendError "A") [AppendError ma]
             [mkThread "B" (Some [AppendError "B"; AppendError mb])]). }
  eapply rtc_l.
  { right; right.
    apply (worker_effect [] [mkThread "A" (Some [AppendError ma])] "B"
             (AppendError "B") [AppendError mb] []). }
  eapply rtc_l.
  { right; right.
    apply (worker_effect [] [] "A" (AppendError ma) []
             [mkThread "B" (Some [AppendError mb])]). }
  eapply rtc_l.
  { right; right.
    apply (worker_effect [] [mkThread "A" (Some [])] "B"
             (AppendError mb) [] []). }
  eapply rtc_l.
  { right; right.
    apply (worker_exit [] [] "A" [mkThread "B" (Some [])]). }
  eapply rtc_l.
  { right; right. apply (worker_exit [] [mkThread "A" None] "B" []). }
  eapply rtc_l; [right; left; apply (poll_pass _ _ _ _ 0); [done|]|].
  { unfold MAX_CONCURRENT_THREADS. lia. }
  eapply rtc_l; [right; left; apply loop_exit|].
  apply rtc_once. right; left. by apply join_done.
Qed.

(** * Further properties of the code *)

(** ** The scan of the download directory *)

Lemma glob_pdf_stem_inj dir x y :
  x ∈ glob_pdf dir → y ∈ glob_pdf dir → drop_last4 x = drop_last4 y → x = y.
Proof.
  unfold glob_pdf. intros [[_ Hx] _]%list_elem_of_filter [[_ Hy] _]%list_elem_of_filter Heq.
  apply ends_with_pdf_inv in Hx, Hy. congruence.
Qed.

Lemma NoDup_get_existing_downloads dir : NoDup (get_existing_downloads dir).
Proof.
  unfold get_existing_downloads. apply NoDup_fmap_2_strong.
  - intros x y Hx Hy. by apply (glob_pdf_stem_inj dir).
  - unfold glob_pdf. apply NoDup_filter, NoDup_elements.
Qed.

(** X1. [get_existing_downloads] returns no identifier twice, and returns an
    identifier exactly when the directory holds its file and the name does
    not begin with a dot; files that do not end in [.pdf] give nothing. *)
Theorem X1_existing_downloads_listed_once dir :
  NoDup (get_existing_downloads dir)
  ∧ (∀ i, i ∈ get_existing_downloads dir
          ↔ listable i = true ∧ is_Some (dir !! pdf_name i))
  ∧ (∀ name content, ends_with_pdf name = false →
             get_existing_downloads (<[name := content]> dir)
             ≡ₚ get_existing_downloads dir).
Proof.
  split_and!.
  - apply NoDup_get_existing_downloads.
  - intros i. by rewrite elem_of_get_existing_downloads, pdf_exists_true.
  - intros name content Hname.
    apply NoDup_Permutation; [apply NoDup_get_existing_downloads..|].
    intros i. rewrite !elem_of_get_existing_downloads, !pdf_exists_true.
    rewrite lookup_insert_ne; [done|].
    intros ->. by rewrite ends_with_pdf_name in Hname.
Qed.

(** ** The rows of the queue *)

Lemma r_rows_loc_labels df labels r :
  r ∈ r_rows (loc_labels df labels) → r.1 ∈ labels ∧ r ∈ r_rows df.
Proof.
  unfold loc_labels. cbn [r_rows]. intros Hr.
  apply list_elem_of_In, in_flat_map in Hr as (l & Hl & Hr).
  apply list_elem_of_In in Hl, Hr.
  by apply list_elem_of_filter in Hr as [<- Hr].
Qed.

Lemma r_rows_build_queue reports_data dir r :
  r ∈ r_rows (build_queue reports_data dir) →
  r ∈ r_rows reports_data ∧ r.1 ∉ get_existing_downloads dir.
Proof.
  unfold build_queue. intros Hr.
  assert (r ∈ r_rows (loc_labels reports_data
            (filter (λ idx, idx ∉ get_existing_downloads dir)
                    (r_index reports_data)))) as Hr'.
  { case_bool_decide; [|done]. cbn [r_rows] in Hr. by eapply subseteq_take. }
  apply r_rows_loc_labels in Hr' as [Hl ?]. split; [done|].
  by apply list_elem_of_filter in Hl as [? _].
Qed.

(** X2. Every row [main] puts in the queue is fetched from a URL that is not
    null: the PDF address when the row has one, and otherwise the HTML
    address, which such a row then has. *)
Theorem X2_queued_rows_are_fetched_from_a_url df dir item :
  item ∈ r_rows (build_queue (valid_reports df) dir) →
  notna (choose_url item.2) = true
  ∧ (notna (field "Pdf_URL" item.2) = true →
     choose_url item.2 = field "Pdf_URL" item.2)
  ∧ (field "Pdf_URL" item.2 = NaN →
     choose_url item.2 = field "Report Html Address" item.2
     ∧ notna (field "Report Html Address" item.2) = true).
Proof.
  intros [Hin _]%r_rows_build_queue. unfold valid_reports in Hin.
  cbn [r_rows] in Hin. apply list_elem_of_filter in Hin as [Hurl _].
  unfold has_valid_url in Hurl. unfold choose_url.
  destruct (field "Pdf_URL" item.2) eqn:Hpdf; cbn in *; split_and!;
    try done; by intros.
Qed.

Lemma X2_queued_rows_are_fetched_from_a_url_witness :
  let item := ("A", [("Pdf_URL", NaN);
                     ("Report Html Address", Text "http://host/a.html")]) in
  notna (choose_url item.2) = true
  ∧ (notna (field "Pdf_URL" item.2) = true →
     choose_url item.2 = field "Pdf_URL" item.2)
  ∧ (field "Pdf_URL" item.2 = NaN →
     choose_url item.2 = field "Report Html Address" item.2
     ∧ notna (field "Report Html Address" item.2) = true).
Proof.
  intros item.
  apply (X2_queued_rows_are_fetched_from_a_url
           (mkReports ["Pdf_URL"; "Report Html Address"]
              [item; ("B", [("Pdf_URL", NaN); ("Report Html Address", NaN)])])
           ∅ item).
  by_computation.
Defined.

(** ** What one worker touches *)

(** X3. A call of [download_file] leaves every file but its own as it was,
    removes nothing from [download_errors], and appends to it either nothing,
    when it succeeds, or its identifier followed by one message, when it
    fails. *)
Theorem X3_worker_touches_its_own_file oracle i row st :
  let st' := run_effects (download_file oracle i row).1 st in
  (∀ name, name ≠ pdf_name i → st'.1 !! name = st.1 !! name)
  ∧ (∀ name, is_Some (st.1 !! name) → is_Some (st'.1 !! name))
  ∧ ∃ added, st'.2 = st.2 ++ added
             ∧ ((download_file oracle i row).2 = true ↔ added = [])
             ∧ ((download_file oracle i row).2 = false ↔ ∃ m, added = [i; m]).
Proof.
  unfold download_file.
  assert (∀ (l : list string) m,
            ∃ added, (l ++ [i]) ++ [m] = l ++ added
                     ∧ (false = true ↔ added = [])
                     ∧ (false = false ↔ ∃ m', added = [i; m'])) as Hfail.
  { intros l m. exists [i; m]. rewrite <- app_assoc.
    split_and!; [done|split; done|]. split; [eauto|done]. }
  assert (∀ (dir : gmap string string) c name,
            is_Some (dir !! name) →
            is_Some (<[pdf_name i:=c]> (<[pdf_name i:=""]> dir) !! name))
    as Hkept.
  { intros dir c name Hs. destruct (decide (pdf_name i = name)) as [<-|Hne].
    - rewrite lookup_insert_eq. by eexists.
    - by rewrite !lookup_insert_ne. }
  destruct (oracle i (choose_url row)) as [e|e|w e|c]; cbn; split_and!;
    try done; try apply Hfail; try apply Hkept.
  - intros name Hne. by rewrite !lookup_insert_ne.
  - intros name Hne. by rewrite !lookup_insert_ne.
  - exists []. rewrite app_nil_r. split_and!; [done|split; done|].
    split; [done|]. by intros [m ?].
Qed.

(** ** The error list after a run *)

(** X4. Whatever the interleaving, [download_pdfs] only adds to
    [download_errors], and what it adds is, up to order, the identifier and
    the message of each worker that failed: no append is lost, none is made
    twice, and a worker that succeeded adds nothing. *)
Theorem X4_no_append_is_lost C oracle queue dir errs dir' errs' :
  download_pdfs C oracle queue dir errs dir' errs' →
  ∃ added, errs' = errs ++ added
           ∧ added ≡ₚ paired (omap (failure_entry oracle) queue).
Proof. apply download_pdfs_errors. Qed.

Lemma X4_no_append_is_lost_witness :
  let oracle := λ (i : string) (_ : cell),
                  if bool_decide (i = "B") then Fetched "%PDF-1.4"
                  else RequestError ("no route to " +:+ i) in
  let row := [("Pdf_URL", Text "http://host/x.pdf")] in
  let queue := [("A", row); ("B", row); ("C", row)] in
  ∃ added,
    (run_in_turn oracle queue (∅, [])).2 = [] ++ added
    ∧ added ≡ₚ paired (omap (failure_entry oracle) queue).
Proof.
  intros oracle row queue.
  apply (X4_no_append_is_lost MAX_CONCURRENT_THREADS oracle queue ∅ []
           (run_in_turn oracle queue (∅, [])).1).
  apply download_pdfs_in_turn. unfold MAX_CONCURRENT_THREADS. lia.
Defined.

(** ** The download directory after a run *)

(** X5. Whatever the interleaving, when [download_pdfs] returns the
    directory holds the files it held before and the file of every worker
    that got as far as opening it, and no other; and every file that is not
    [<id>.pdf] for an identifier of the queue is as it was. *)
Theorem X5_files_after_the_downloads C oracle queue dir errs dir' errs' :
  download_pdfs C oracle queue dir errs dir' errs' →
  (∀ name,
      is_Some (dir' !! name) ↔
      is_Some (dir !! name)
      ∨ ∃ item, item ∈ queue ∧ name = pdf_name item.1
                ∧ opens_file (oracle item.1 (choose_url item.2)) = true)
  ∧ (∀ name, name ∉ pdf_name <$> queue.*1 → dir' !! name = dir !! name).
Proof. apply download_pdfs_files. Qed.

Lemma X5_files_after_the_downloads_witness :
  let oracle := λ (i : string) (_ : cell),
                  if bool_decide (i = "B") then Fetched "%PDF-1.4"
                  else RequestError ("no route to " +:+ i) in
  let row := [("Pdf_URL", Text "http://host/x.pdf")] in
  let queue := [("A", row); ("B", row)] in
  let dir : gmap string string := {[ "notes.txt" := "keep" ]} in
  let dir' := (run_in_turn oracle queue (dir, [])).1 in
  (∀ name,
      is_Some (dir' !! name) ↔
      is_Some (dir !! name)
      ∨ ∃ item, item ∈ queue ∧ name = pdf_name item.1
                ∧ opens_file (oracle item.1 (choose_url item.2)) = true)
  ∧ (∀ name, name ∉ pdf_name <$> queue.*1 → dir' !! name = dir !! name).
Proof.
  intros oracle row queue dir dir'.
  apply (X5_files_after_the_downloads MAX_CONCURRENT_THREADS oracle queue dir []
           dir' (run_in_turn oracle queue (dir, [])).2).
  apply download_pdfs_in_turn. unfold MAX_CONCURRENT_THREADS. lia.
Defined.

(** ** A run can always be finished *)

Lemma threads_run_to_end C oracle q ended ts sh p :
  alive_count ended = 0 →
  ∃ ts' sh',
    rtc (step C oracle) (mkOrch q (ended ++ ts) sh p) (mkOrch q ts' sh' p)
    ∧ alive_count ts' = 0.
Proof.
  revert ended sh. induction ts as [|[name [todo|]] ts IH]; intros ended sh Hended.
  - exists ended, sh. by rewrite app_nil_r.
  - destruct (IH (ended ++ [mkThread name None]) (run_effects todo sh))
      as (ts' & sh' & Hrun & Hts').
    { rewrite alive_count_app, alive_count_ended. lia. }
    exists ts', sh'. split; [|done].
    eapply rtc_trans; [apply worker_runs|].
    by rewrite <- app_assoc in Hrun.
  - destruct (IH (ended ++ [mkThread name None]) sh) as (ts' & sh' & Hrun & Hts').
    { rewrite alive_count_app, alive_count_ended. lia. }
    exists ts', sh'. split; [|done]. by rewrite <- app_assoc in Hrun.
Qed.

(** X6. From every state a run of [download_pdfs] can reach, the run can go
    on until the function returns: with workers that end, neither the
    admission loop nor the final wait can be stuck for good. *)
Theorem X6_the_downloads_can_always_finish C oracle queue dir errs s :
  1 ≤ C →
  rtc (step C oracle) (start queue dir errs) s →
  ∃ ts dir' errs',
    rtc (step C oracle) s (mkOrch [] ts (dir', errs') AtDone).
Proof.
  intros HC Hrun.
  destruct (dispatched_reachable C oracle queue dir errs s Hrun) as (_ & Hpc & _).
  destruct s as [q ts sh p]. cbn [pc pending] in Hpc.
  destruct (threads_run_to_end C oracle q [] ts sh p eq_refl)
    as (ts' & sh' & Hthreads & Hts'). cbn [app] in Hthreads.
  destruct p.
  - destruct (controller_runs C oracle HC q ts' sh' Hts') as [ts'' Hctl].
    exists ts'', (run_in_turn oracle q sh').1, (run_in_turn oracle q sh').2.
    eapply rtc_trans; [exact Hthreads|].
    by destruct (run_in_turn oracle q sh').
  - destruct (controller_runs C oracle HC q ts' sh' Hts') as [ts'' Hctl].
    exists ts'', (run_in_turn oracle q sh').1, (run_in_turn oracle q sh').2.
    eapply rtc_trans; [exact Hthreads|].
    eapply rtc_l; [right; left; apply (poll_pass C _ _ _ 0); lia|].
    by destruct (run_in_turn oracle q sh').
  - destruct Hpc as [?|[?| ->]]; [done..|].
    exists ts', sh'.1, sh'.2. eapply rtc_trans; [exact Hthreads|].
    apply rtc_once. right; left. destruct sh'. apply join_done. lia.
  - destruct Hpc as [?|[?| ->]]; [done..|].
    exists ts', sh'.1, sh'.2. by destruct sh'.
Qed.

Lemma X6_the_downloads_can_always_finish_witness :
  let oracle := λ (_ : string) (_ : cell), Fetched "%PDF-1.4" in
  let row := [("Pdf_URL", Text "http://host/x.pdf")] in
  let s := mkOrch [("B", row)]
             [mkThread "A" (Some (download_file oracle "A" row).1)]
             (∅, []) AtPoll in
  ∃ ts dir' errs',
    rtc (step MAX_CONCURRENT_THREADS oracle) s
        (mkOrch [] ts (dir', errs') AtDone).
Proof.
  intros oracle row s.
  apply (X6_the_downloads_can_always_finish MAX_CONCURRENT_THREADS oracle
           [("A", row); ("B", row)] ∅ [] s).
  - unfold MAX_CONCURRENT_THREADS. lia.
  - apply rtc_once. left. apply (spawn_next oracle "A" row [("B", row)] []).
Defined.

(** ** Workers of distinct identifiers do not interfere *)

Lemma run_effects_app effs1 effs2 st :
  run_effects (effs1 ++ effs2) st = run_effects effs2 (run_effects effs1 st).
Proof. unfold run_effects. apply foldl_app. Qed.

Lemma run_in_turn_effects oracle queue st :
  run_in_turn oracle queue st = run_effects (effects_of oracle queue) st.
Proof.
  revert st. induction queue as [|[i row] rest IH]; intros st; [done|].
  change (effects_of oracle ((i, row) :: rest))
    with ((download_file oracle i row).1 ++ effects_of oracle rest).
  rewrite run_effects_app, <- IH. done.
Qed.

Lemma apply_effect_dir eff sh sh' :
  sh.1 = sh'.1 → (apply_effect eff sh).1 = (apply_effect eff sh').1.
Proof. intros H. destruct eff; cbn; by rewrite ?H. Qed.

Lemma run_effects_dir effs sh sh' :
  sh.1 = sh'.1 → (run_effects effs sh).1 = (run_effects effs sh').1.
Proof.
  revert sh sh'. induction effs as [|eff effs IH]; intros sh sh' H; [done|].
  cbn. apply IH. by apply apply_effect_dir.
Qed.

(** An effect moves past effects on other files, as far as the directory
    goes. *)
Lemma apply_effect_commute eff effs sh :
  (∀ n, n ∈ written_names [eff] → n ∉ written_names effs) →
  (run_effects effs (apply_effect eff sh)).1
  = (apply_effect eff (run_effects effs sh)).1.
Proof.
  revert sh. induction effs as [|b effs IH]; intros sh Hn; [done|].
  change (run_effects (b :: effs) ?st)
    with (run_effects effs (apply_effect b st)).
  rewrite <- IH.
  - apply run_effects_dir.
    destruct eff as [n|n c|x], b as [m|m c'|y]; cbn; try done;
      apply insert_insert_ne; intros Heq; subst; eapply Hn; cbn; by left.
  - intros n Hin Hn'. apply (Hn n Hin).
    change (b :: effs) with ([b] ++ effs). rewrite written_names_app.
    set_solver.
Qed.

Lemma download_file_names oracle i row n :
  n ∈ written_names (download_file oracle i row).1 → n = pdf_name i.
Proof.
  unfold download_file. destruct (oracle i (choose_url row)); cbn; set_solver.
Qed.

Lemma elem_of_written_names_todo ts n :
  n ∈ written_names (todo_effects ts) →
  ∃ t, t ∈ ts ∧ n ∈ written_names (default [] (t_todo t)).
Proof.
  induction ts as [|t ts IH]; [by intros ?%not_elem_of_nil|].
  rewrite todo_effects_cons, written_names_app, elem_of_app.
  intros [Hn|Hn].
  - exists t. split; [by left|done].
  - destruct (IH Hn) as (t' & Ht' & Hn'). exists t'. split; [by right|done].
Qed.

(** A step is a move that performs no effect, or the next effect of one
    thread. *)
Lemma step_cases C oracle s s' :
  step C oracle s s' →
  (remaining oracle s' = remaining oracle s ∧ shared s' = shared s)
  ∨ ∃ q ts1 name eff todo ts2 sh p,
      s = mkOrch q (ts1 ++ mkThread name (Some (eff :: todo)) :: ts2) sh p
      ∧ s' = mkOrch q (ts1 ++ mkThread name (Some todo) :: ts2)
               (apply_effect eff sh) p.
Proof.
  intros Hstep. destruct (step_remaining C oracle s s' Hstep) as [?|_]; [by left|].
  destruct Hstep as [Hs|[Hs|Hs]]; destruct Hs; try (by left).
  - left. unfold remaining. cbn [threads pending shared]. split; [|done].
    rewrite todo_effects_app, todo_effects_cons. cbn [t_todo default].
    change (todo_effects []) with (@nil effect).
    rewrite app_nil_r, <- app_assoc. done.
  - right. by eexists _, _, _, _, _, _, _, _.
  - left. unfold remaining. cbn [threads pending shared]. split; [|done].
    by rewrite !todo_effects_app, !todo_effects_cons.
Qed.

(** Every thread only ever writes the file of its own identifier. *)
Lemma own_file_reachable C oracle queue dir errs s :
  rtc (step C oracle) (start queue dir errs) s →
  ∀ t n, t ∈ threads s → n ∈ written_names (default [] (t_todo t)) →
         n = pdf_name (t_name t).
Proof.
  revert s. apply (rtc_ind_r (R := step C oracle)
    (λ s, ∀ t n, t ∈ threads s → n ∈ written_names (default [] (t_todo t)) →
                 n = pdf_name (t_name t))).
  - intros t n Ht. by apply not_elem_of_nil in Ht.
  - intros s1 s2 _ Hstep IH t n Ht Hn.
    destruct Hstep as [Hs|[Hs|Hs]]; destruct Hs; cbn [threads] in *.
    + apply elem_of_app in Ht as [Ht|Ht%list_elem_of_singleton]; [by eapply IH|].
      subst t. cbn in Hn |- *. by eapply download_file_names.
    + by eapply IH.
    + by eapply IH.
    + by eapply IH.
    + by eapply IH.
    + by eapply IH.
    + apply elem_of_app in Ht as [Ht|[->|Ht]%elem_of_cons].
      * eapply IH; [|done]. set_solver.
      * apply (IH (mkThread name (Some (eff :: todo)))); [set_solver|].
        cbn [t_todo default id] in Hn |- *.
        change (eff :: todo) with ([eff] ++ todo).
        rewrite written_names_app. set_solver.
      * eapply IH; [|done]. set_solver.
    + apply elem_of_app in Ht as [Ht|[->|Ht]%elem_of_cons].
      * eapply IH; [|done]. set_solver.
      * cbn [t_todo default] in Hn. by apply not_elem_of_nil in Hn.
      * eapply IH; [|done]. set_solver.
Qed.

Lemma run_effects_move eff before after sh :
  (∀ n, n ∈ written_names [eff] → n ∉ written_names before) →
  (run_effects (before ++ after) (apply_effect eff sh)).1
  = (run_effects (before ++ eff :: after) sh).1.
Proof.
  intros Hn. rewrite !run_effects_app.
  change (run_effects (eff :: after) ?st)
    with (run_effects after (apply_effect eff st)).
  apply run_effects_dir. by apply apply_effect_commute.
Qed.

Lemma pdf_name_inj i j : pdf_name i = pdf_name j → i = j.
Proof.
  intros H. rewrite <- (drop_last4_pdf_name i), <- (drop_last4_pdf_name j).
  by rewrite H.
Qed.

(** Whatever the interleaving, the directory develops as if the effects still
    to come were run one after the other, when no identifier is queued
    twice. *)
Lemma directory_reachable C oracle queue dir errs s :
  NoDup queue.*1 →
  rtc (step C oracle) (start queue dir errs) s →
  (run_effects (remaining oracle s) (shared s)).1
  = (run_effects (effects_of oracle queue) (dir, errs)).1.
Proof.
  intros Hnd. revert s. apply (rtc_ind_r (R := step C oracle)
    (λ s, (run_effects (remaining oracle s) (shared s)).1
          = (run_effects (effects_of oracle queue) (dir, errs)).1)).
  - unfold remaining, start. cbn [threads pending shared].
    change (todo_effects []) with (@nil effect). done.
  - intros s1 s2 Hrun Hstep IH.
    destruct (step_cases C oracle s1 s2 Hstep)
      as [[-> ->]|(q & ts1 & name & eff & todo & ts2 & sh & p & -> & ->)];
      [done|].
    rewrite <- IH. unfold remaining. cbn [threads pending shared].
    rewrite !todo_effects_app, !todo_effects_cons. cbn [t_todo default id].
    rewrite <- !app_assoc. cbn [app].
    apply run_effects_move. intros n Hn Hn'.
    pose proof (own_file_reachable C oracle queue dir errs _ Hrun) as Hown.
    destruct (dispatched_reachable C oracle queue dir errs _ Hrun)
      as (Hnames & _ & _).
    cbn [threads pending] in Hown, Hnames.
    assert (n = pdf_name name) as ->.
    { apply (Hown (mkThread name (Some (eff :: todo)))); [set_solver|].
      cbn [t_todo default id]. change (eff :: todo) with ([eff] ++ todo).
      rewrite written_names_app. set_solver. }
    destruct (elem_of_written_names_todo _ _ Hn') as (t & Ht & Hnt).
    apply (Hown t) in Hnt; [|set_solver]. apply pdf_name_inj in Hnt.
    rewrite <- Hnames in Hnd. apply NoDup_app in Hnd as [Hnd _].
    rewrite fmap_app, fmap_cons in Hnd. cbn [t_name] in Hnd.
    apply NoDup_app in Hnd as (_ & Hnd & _).
    apply (Hnd name); [|by left].
    rewrite Hnt. apply list_elem_of_fmap. by exists t.
Qed.

(** Effects leave the files they do not name alone. *)
Lemma run_effects_frame effs sh name :
  name ∉ written_names effs → (run_effects effs sh).1 !! name = sh.1 !! name.
Proof.
  revert sh. induction effs as [|eff effs IH]; intros sh Hn; [done|].
  change (run_effects (eff :: effs) sh)
    with (run_effects effs (apply_effect eff sh)).
  change (eff :: effs) with ([eff] ++ effs) in Hn.
  rewrite written_names_app in Hn.
  rewrite IH by set_solver.
  destruct eff as [n|n c|x]; cbn in Hn |- *; [| |done];
    apply lookup_insert_ne; set_solver.
Qed.

(** What one worker, run alone, leaves in the file of its identifier. *)
Lemma download_file_content oracle i row sh :
  (run_effects (download_file oracle i row).1 sh).1 !! pdf_name i
  = match oracle i (choose_url row) with
    | Fetched content => Some content
    | WriteError written _ => Some written
    | RequestError _ | OtherError _ => sh.1 !! pdf_name i
    end.
Proof.
  unfold download_file. destruct (oracle i (choose_url row)); cbn; try done;
    by rewrite lookup_insert_eq.
Qed.

Lemma run_in_turn_content oracle queue sh item :
  NoDup queue.*1 → item ∈ queue →
  (run_effects (effects_of oracle queue) sh).1 !! pdf_name item.1
  = match oracle item.1 (choose_url item.2) with
    | Fetched content => Some content
    | WriteError written _ => Some written
    | RequestError _ | OtherError _ => sh.1 !! pdf_name item.1
    end.
Proof.
  revert sh. induction queue as [|[i row] rest IH]; intros sh Hnd Hin;
    [by apply not_elem_of_nil in Hin|].
  rewrite fmap_cons in Hnd. apply NoDup_cons in Hnd as [Hi Hnd].
  change (effects_of oracle ((i, row) :: rest))
    with ((download_file oracle i row).1 ++ effects_of oracle rest).
  rewrite run_effects_app.
  apply elem_of_cons in Hin as [->|Hin].
  - cbn [fst snd]. rewrite run_effects_frame.
    + apply download_file_content.
    + intros (item & Hitem & Hname & _)%elem_of_written_names_effects_of.
      apply pdf_name_inj in Hname. subst i.
      apply Hi. apply list_elem_of_fmap. by exists item.
  - rewrite (IH _ Hnd Hin).
    rewrite (run_effects_frame (download_file oracle i row).1); [done|].
    intros Hname%download_file_names. apply pdf_name_inj in Hname.
    apply Hi. rewrite <- Hname. apply list_elem_of_fmap. by exists item.
Qed.

(** X7. When no identifier is queued twice, the workers do not interfere on
    the download directory: however the threads interleave, [download_pdfs]
    leaves the directory that downloading the queue one item after the other
    leaves, and the file of every queued item holds what that item's worker
    wrote last: the fetched body, the part written before a write failed, or
    what was there before when the request itself failed. *)
Theorem X7_distinct_identifiers_do_not_interfere
    C oracle queue dir errs dir' errs' :
  NoDup queue.*1 →
  download_pdfs C oracle queue dir errs dir' errs' →
  dir' = (run_in_turn oracle queue (dir, errs)).1
  ∧ ∀ item, item ∈ queue →
      dir' !! pdf_name item.1
      = match oracle item.1 (choose_url item.2) with
        | Fetched content => Some content
        | WriteError written _ => Some written
        | RequestError _ | OtherError _ => dir !! pdf_name item.1
        end.
Proof.
  intros Hnd [ts Hrun].
  pose proof (directory_reachable C oracle queue dir errs _ Hnd Hrun) as Hdir.
  destruct (dispatched_reachable C oracle queue dir errs _ Hrun)
    as (_ & _ & Hdone).
  rewrite remaining_done in Hdir by (by apply Hdone).
  cbn in Hdir. split.
  - by rewrite run_in_turn_effects.
  - intros item Hin. rewrite Hdir.
    apply (run_in_turn_content oracle queue (dir, errs) item Hnd Hin).
Qed.

Lemma X7_distinct_identifiers_do_not_interfere_witness :
  let oracle := λ (i : string) (_ : cell),
                  if bool_decide (i = "B") then Fetched "%PDF-1.4"
                  else RequestError ("no route to " +:+ i) in
  let row := [("Pdf_URL", Text "http://host/x.pdf")] in
  let queue := [("A", row); ("B", row)] in
  let dir : gmap string string := {[ "A.pdf" := "old" ]} in
  let dir' := (run_in_turn oracle queue (dir, [])).1 in
  dir' = (run_in_turn oracle queue (dir, [])).1
  ∧ ∀ item, item ∈ queue →
      dir' !! pdf_name item.1
      = match oracle item.1 (choose_url item.2) with
        | Fetched content => Some content
        | WriteError written _ => Some written
        | RequestError _ | OtherError _ => dir !! pdf_name item.1
        end.
Proof.
  intros oracle row queue dir dir'.
  apply (X7_distinct_identifiers_do_not_interfere MAX_CONCURRENT_THREADS
           oracle queue dir [] dir' (run_in_turn oracle queue (dir, [])).2).
  - apply (bool_decide_unpack _). by vm_compute.
  - apply download_pdfs_in_turn. unfold MAX_CONCURRENT_THREADS. lia.
Defined.

(** ** One thread at a time *)

(** With a bound of one, the effects still to come are run in the order in
    which they stand: no thread but the one that moves has anything left. *)
Lemma one_at_a_time_reachable oracle queue dir errs s :
  rtc (step 1 oracle) (start queue dir errs) s →
  run_effects (remaining oracle s) (shared s)
  = run_effects (effects_of oracle queue) (dir, errs).
Proof.
  revert s. apply (rtc_ind_r (R := step 1 oracle)
    (λ s, run_effects (remaining oracle s) (shared s)
          = run_effects (effects_of oracle queue) (dir, errs))).
  - unfold remaining, start. cbn [threads pending shared].
    change (todo_effects []) with (@nil effect). done.
  - intros s1 s2 Hrun Hstep IH.
    destruct (step_cases 1 oracle s1 s2 Hstep)
      as [[-> ->]|(q & ts1 & name & eff & todo & ts2 & sh & p & -> & ->)];
      [done|].
    rewrite <- IH. unfold remaining. cbn [threads pending shared].
    destruct (within_bound_reachable 1 oracle (le_n 1) queue dir errs _ Hrun)
      as [Hle _].
    cbn [threads] in Hle.
    rewrite alive_count_app, (alive_count_cons _ ts2), alive_count_live in Hle.
    rewrite !todo_effects_app, (todo_effects_ended ts1) by lia.
    rewrite !todo_effects_cons. cbn [t_todo default id app].
    done.
Qed.

(** X8. With the bound on concurrent threads set to one, [download_pdfs]
    downloads the queue strictly one item after the other: every run ends with
    the directory and the error list of that one schedule, so the error list
    is the old one followed by identifier and message of each failed item, in
    queue order. *)
Theorem X8_bound_one_downloads_in_turn oracle queue dir errs dir' errs' :
  download_pdfs 1 oracle queue dir errs dir' errs' →
  (dir', errs') = run_in_turn oracle queue (dir, errs)
  ∧ errs' = errs ++ paired (omap (failure_entry oracle) queue).
Proof.
  intros [ts Hrun].
  pose proof (one_at_a_time_reachable oracle queue dir errs _ Hrun) as Hst.
  destruct (dispatched_reachable 1 oracle queue dir errs _ Hrun)
    as (_ & _ & Hdone).
  rewrite remaining_done in Hst by (by apply Hdone).
  cbn in Hst. rewrite <- run_in_turn_effects in Hst.
  split; [done|].
  rewrite <- (run_in_turn_errors oracle queue dir errs), <- Hst. done.
Qed.

Lemma X8_bound_one_downloads_in_turn_witness :
  let oracle := λ (i : string) (_ : cell),
                  if bool_decide (i = "B") then Fetched "%PDF-1.4"
                  else RequestError ("no route to " +:+ i) in
  let row := [("Pdf_URL", Text "http://host/x.pdf")] in
  let queue := [("A", row); ("B", row); ("C", row)] in
  let st := run_in_turn oracle queue (∅, []) in
  (st.1, st.2) = run_in_turn oracle queue (∅, [])
  ∧ st.2 = [] ++ paired (omap (failure_entry oracle) queue).
Proof.
  intros oracle row queue st.
  apply (X8_bound_one_downloads_in_turn oracle queue ∅ [] st.1 st.2).
  apply download_pdfs_in_turn. lia.
Defined.

(** ** The error message of a failed item *)

Lemma index_of_first x before after :
  x ∉ before → index_of x (before ++ x :: after) = Some (length before).
Proof.
  induction before as [|y before IH]; intros Hx; cbn [app index_of length].
  - by rewrite bool_decide_eq_true_2.
  - rewrite bool_decide_eq_false_2 by set_solver.
    rewrite IH by set_solver. done.
Qed.

(** X9. The message [create_output_report] gives a failed item is found by
    position: it is the entry of [download_errors] that follows the first
    occurrence of the identifier, whatever that entry is; it is empty when
    the identifier is the last entry; and it is "File not found" exactly
    when the identifier does not occur in the list. *)
Theorem X9_error_message_follows_first_occurrence index :
  (∀ download_errors,
      index ∉ download_errors →
      error_message index download_errors = "File not found")
  ∧ (∀ before after,
        index ∉ before →
        error_message index (before ++ index :: after)
        = default "" (head after)).
Proof.
  split.
  - intros download_errors. apply error_message_absent.
  - intros before after Hx. unfold error_message.
    rewrite bool_decide_eq_true_2 by set_solver.
    rewrite index_of_first by done.
    rewrite length_app. cbn [length].
    destruct after as [|m after].
    + rewrite bool_decide_eq_false_2 by (cbn [length]; lia). done.
    + rewrite bool_decide_eq_true_2 by (cbn [length]; lia).
      rewrite lookup_app_r by lia.
      replace (length before + 1 - length before) with 1 by lia. done.
Qed.

(** ** What [update_metadata] writes, and when it fails *)

Lemma id_column_of_new_data cols q reports_data dir :
  ID_COLUMN ∈ columns (DataFrame_of_records (new_records cols q reports_data dir))
  ↔ r_index q ≠ [].
Proof.
  rewrite columns_of_records. unfold new_records. split.
  - intros (r & Hr & _) Hq. rewrite Hq in Hr. by apply not_elem_of_nil in Hr.
  - intros Hq. destruct (r_index q) as [|i l]; [done|].
    exists (new_record cols reports_data (get_existing_downloads dir) i).
    split; [rewrite fmap_cons; by left|].
    apply new_record_fixed_keys.
Qed.

(** X10. [update_metadata] saves as backup the metadata table exactly as it
    loaded it (the empty two-column table when there is no metadata file),
    and it fails to write the updated table in two cases only: the metadata
    file cannot be read, in which case no backup is written either, or the
    file has no identifier column and the queue is empty, so that
    [drop_duplicates] finds no such column. *)
Theorem X10_update_metadata_backup_and_failure q reports_data dir f :
  (update_metadata q reports_data dir f).1 = load_metadata f
  ∧ ((update_metadata q reports_data dir f).2 = None ↔
     f = Unreadable
     ∨ ∃ M, f = Stored M ∧ (ID_COLUMN ∉ columns M) ∧ r_index q = []).
Proof.
  assert (∀ M,
    drop_duplicates ID_COLUMN
      (concat M (DataFrame_of_records
                   (new_records (columns M) q reports_data dir))) = None
    ↔ (ID_COLUMN ∉ columns M) ∧ r_index q = []) as Hdrop.
  { intros M. unfold drop_duplicates, concat. cbn [columns].
    case_bool_decide as Hin; rewrite elem_of_extend_columns in Hin;
      rewrite id_column_of_new_data in Hin.
    - split; [done|]. intros [HM Hq]. destruct Hin as [?|?]; done.
    - split; [|done]. intros _. split; [tauto|].
      destruct (r_index q); [done|]. exfalso. apply Hin. by right. }
  unfold update_metadata. destruct f as [| |M]; cbn [load_metadata fst snd].
  - split; [done|]. rewrite Hdrop. cbn [columns]. split.
    + intros [HM _]. exfalso. apply HM. by left.
    + intros [?|(M & ? & _)]; done.
  - split; [done|]. split; [by left|done].
  - split; [done|]. rewrite Hdrop. split.
    + intros ?. right. by exists M.
    + intros [?|(M' & [= <-] & ?)]; done.
Qed.

(** ** The metadata table after an update *)

Lemma extend_columns_prefix acc ks : ∃ added, extend_columns acc ks = acc ++ added.
Proof.
  unfold extend_columns. revert acc.
  induction ks as [|k ks IH]; intros acc; cbn [foldl].
  - exists []. by rewrite app_nil_r.
  - case_bool_decide; [apply IH|].
    destruct (IH (acc ++ [k])) as [added ->]. exists (k :: added).
    by rewrite <- app_assoc.
Qed.

(** [concat] followed by [drop_duplicates], when it succeeds. *)
Lemma merged_frame col (M N T : DataFrame) :
  drop_duplicates col (concat M N) = Some T →
  let cols := extend_columns (columns M) (columns N) in
  col ∈ cols
  ∧ T = mkDataFrame cols (keep_last col (reindex cols <$> (rows M ++ rows N))).
Proof.
  unfold drop_duplicates, concat. cbn [columns rows].
  case_bool_decide; [|done]. intros [= <-]. done.
Qed.

Lemma new_data_ids cols q reports_data dir :
  field ID_COLUMN
    <$> rows (DataFrame_of_records (new_records cols q reports_data dir))
  = Text <$> r_index q.
Proof.
  pose proof (id_column_of_new_data cols q reports_data dir) as Hid.
  unfold DataFrame_of_records in *. cbn [rows columns] in *.
  unfold new_records in *. rewrite <- !list_fmap_compose.
  apply list_fmap_ext. intros n i Hi. unfold compose.
  rewrite field_reindex_in; [apply new_record_id|].
  apply Hid. intros Hq. by rewrite Hq in Hi.
Qed.

(** X11. When [update_metadata] writes the updated table, the columns of the
    table it loaded come first and in their order, no two rows of the result
    carry the same identifier cell, the identifiers are those of the loaded
    table and of the queue, and an identifier that is not queued keeps the
    last row it had, cell for cell under every previous column. *)
Theorem X11_metadata_keeps_prior_rows q reports_data dir f M T :
  load_metadata f = Some M →
  (update_metadata q reports_data dir f).2 = Some T →
  (∃ added, columns T = columns M ++ added)
  ∧ NoDup (field ID_COLUMN <$> rows T)
  ∧ (∀ k, k ∈ field ID_COLUMN <$> rows T ↔
          k ∈ field ID_COLUMN <$> rows M ∨ k ∈ Text <$> r_index q)
  ∧ (∀ i r,
        i ∉ r_index q →
        last (filter (λ r, field ID_COLUMN r = Text i) (rows M)) = Some r →
        ∃ r', filter (λ r, field ID_COLUMN r = Text i) (rows T) = [r']
              ∧ ∀ c, c ∈ columns M → field c r' = field c r).
Proof.
  intros Hload HT. unfold update_metadata in HT. rewrite Hload in HT.
  cbn [snd] in HT. apply merged_frame in HT as [Hid ->].
  set (N := DataFrame_of_records (new_records (columns M) q reports_data dir))
    in *.
  set (cols := extend_columns (columns M) (columns N)) in *.
  cbn [columns rows].
  assert (field ID_COLUMN <$> (reindex cols <$> (rows M ++ rows N))
          = (field ID_COLUMN <$> rows M) ++ (Text <$> r_index q)) as Hids.
  { rewrite <- list_fmap_compose.
    rewrite (list_fmap_ext _ (field ID_COLUMN) _).
    2:{ intros ? r _. cbn. by apply field_reindex_in. }
    rewrite fmap_app. unfold N. by rewrite new_data_ids. }
  split_and!.
  - apply extend_columns_prefix.
  - apply keep_last_NoDup.
  - intros k. by rewrite keep_last_keys, Hids, elem_of_app.
  - intros i r Hq Hr. exists (reindex cols r). split.
    + rewrite keep_last_filter, filter_fmap.
      rewrite (list_filter_iff _ (λ r, field ID_COLUMN r = Text i)).
      2:{ intros r0. by rewrite field_reindex_in. }
      rewrite filter_app.
      rewrite (filter_none _ (rows N)), app_nil_r.
      * by rewrite fmap_last, Hr.
      * intros r0 Hr0 Hi. apply Hq.
        assert (Text i ∈ field ID_COLUMN <$> rows N) as Hin.
        { rewrite <- Hi. by apply list_elem_of_fmap_2. }
        unfold N in Hin. rewrite new_data_ids in Hin.
        apply list_elem_of_fmap in Hin as (j & [= ->] & Hj). done.
    + intros c Hc. apply field_reindex_in.
      apply elem_of_extend_columns. by left.
Qed.

Lemma X11_metadata_keeps_prior_rows_witness :
  let M := mkDataFrame ["BRnum"; "Title"; "pdf_downloaded"]
             [[("BRnum", Text "A"); ("Title", Text "Old title");
               ("pdf_downloaded", Text "No")]] in
  let q := mkReports ["Pdf_URL"; "Title"]
             [("B", [("Pdf_URL", Text "http://b");
                     ("Title", Text "Report B")])] in
  let T := mkDataFrame ["BRnum"; "Title"; "pdf_downloaded"]
             [[("BRnum", Text "A"); ("Title", Text "Old title");
               ("pdf_downloaded", Text "No")];
              [("BRnum", Text "B"); ("Title", Text "Report B");
               ("pdf_downloaded", Text "Yes")]] in
  (∃ added, columns T = columns M ++ added)
  ∧ NoDup (field ID_COLUMN <$> rows T)
  ∧ (∀ k, k ∈ field ID_COLUMN <$> rows T ↔
          k ∈ field ID_COLUMN <$> rows M ∨ k ∈ Text <$> r_index q)
  ∧ (∀ i r,
        i ∉ r_index q →
        last (filter (λ r, field ID_COLUMN r = Text i) (rows M)) = Some r →
        ∃ r', filter (λ r, field ID_COLUMN r = Text i) (rows T) = [r']
              ∧ ∀ c, c ∈ columns M → field c r' = field c r).
Proof.
  intros M q T.
  apply (X11_metadata_keeps_prior_rows q q {[ "B.pdf" := "%PDF" ]}
           (Stored M) M T).
  - reflexivity.
  - vm_compute. reflexivity.
Defined.

(** ** The queue of a run *)

Lemma filter_label_unique (l : list (string * list (string * cell))) r :
  NoDup l.*1 → r ∈ l → filter (λ r', r'.1 = r.1) l = [r].
Proof.
  induction l as [|x l IH]; intros Hnd Hr; [by apply not_elem_of_nil in Hr|].
  rewrite fmap_cons in Hnd. apply NoDup_cons in Hnd as [Hx Hnd].
  apply elem_of_cons in Hr as [->|Hr].
  - rewrite filter_cons_True by done. f_equal.
    apply filter_none. intros r' Hr' Heq. apply Hx. rewrite <- Heq.
    by apply list_elem_of_fmap_2.
  - rewrite filter_cons_False; [by apply IH|].
    intros Heq. apply Hx. rewrite Heq. by apply list_elem_of_fmap_2.
Qed.

Lemma loc_labels_of_rows df (sub : list (string * list (string * cell))) :
  NoDup (r_index df) → sub ⊆ r_rows df →
  r_rows (loc_labels df sub.*1) = sub.
Proof.
  intros Hnd. unfold loc_labels. cbn [r_rows].
  induction sub as [|r sub IH]; intros Hsub; [done|].
  rewrite fmap_cons. cbn [flat_map].
  rewrite filter_label_unique by (done || set_solver).
  rewrite IH by set_solver. done.
Qed.

(** X12. When no identifier occurs twice in the source table, the queue of a
    run is made of the rows that have a URL and whose identifier the scan of
    the download directory does not list, in the order of the table, cut
    after the first [MAX_DOWNLOADS] of them; its columns are those of the
    table. *)
Theorem X12_queue_is_the_first_unlisted_rows df dir :
  NoDup (r_index df) →
  r_rows (build_queue (valid_reports df) dir)
  = take MAX_DOWNLOADS
      (filter (λ r, (r.1 ∉ get_existing_downloads dir) ∧ has_valid_url r = true)
              (r_rows df))
  ∧ r_columns (build_queue (valid_reports df) dir) = r_columns df.
Proof.
  intros Hnd.
  assert (NoDup (r_index (valid_reports df))) as Hnd'.
  { unfold r_index, valid_reports. cbn [r_rows].
    eapply sublist_NoDup; [exact Hnd|].
    apply fmap_sublist, sublist_filter. }
  assert (r_rows (loc_labels (valid_reports df)
                    (filter (λ idx, idx ∉ get_existing_downloads dir)
                            (r_index (valid_reports df))))
          = filter (λ r, (r.1 ∉ get_existing_downloads dir)
                         ∧ has_valid_url r = true) (r_rows df)) as Hrows.
  { unfold r_index at 1. rewrite filter_fmap.
    rewrite loc_labels_of_rows; [|done|].
    - unfold valid_reports. cbn [r_rows]. apply list_filter_filter.
    - intros r Hr. by apply list_elem_of_filter in Hr as [_ Hr]. }
  unfold build_queue. case_bool_decide as Hlen.
  - cbn [r_rows r_columns]. by rewrite Hrows.
  - rewrite Hrows. split; [|done].
    rewrite firstn_all2; [done|].
    unfold r_len in Hlen. rewrite Hrows in Hlen. lia.
Qed.

Lemma X12_queue_is_the_first_unlisted_rows_witness :
  let row u := [("Pdf_URL", u); ("Report Html Address", NaN)] in
  let df := mkReports ["Pdf_URL"; "Report Html Address"]
              [("A", row (Text "http://host/a.pdf"));
               ("B", row NaN);
               ("C", row (Text "http://host/c.pdf"));
               ("D", row (Text "http://host/d.pdf"))] in
  let dir : gmap string string := {[ "C.pdf" := "%PDF-1.4" ]} in
  r_rows (build_queue (valid_reports df) dir)
  = take MAX_DOWNLOADS
      (filter (λ r, (r.1 ∉ get_existing_downloads dir) ∧ has_valid_url r = true)
              (r_rows df))
  ∧ r_columns (build_queue (valid_reports df) dir) = r_columns df.
Proof.
  intros row df dir.
  apply (X12_queue_is_the_first_unlisted_rows df dir).
  apply (bool_decide_unpack _). by vm_compute.
Defined.

(** ** What a run of [main] leaves alone *)

Lemma download_phase_files oracle q dir dir' errors' :
  download_phase oracle q dir dir' errors' →
  (∀ name,
      is_Some (dir' !! name) ↔
      is_Some (dir !! name)
      ∨ ∃ item, item ∈ r_rows q ∧ name = pdf_name item.1
                ∧ opens_file (oracle item.1 (choose_url item.2)) = true)
  ∧ (∀ name, name ∉ pdf_name <$> r_index q → dir' !! name = dir !! name).
Proof.
  unfold download_phase. case_bool_decide as Hlen.
  - apply download_pdfs_files.
  - intros [-> _]. unfold r_len in Hlen.
    destruct (r_rows q) as [|r l] eqn:Hq; [|cbn in Hlen; lia].
    split; [|done]. intros name. split; [by left|].
    intros [?|(item & Hin & _)]; [done|]. by apply not_elem_of_nil in Hin.
Qed.

(** X13. A run of [main] never changes the source table and never removes a
    file from the download directory; it leaves every file as it was whose
    name does not end in [.pdf], and every file [<id>.pdf] of an identifier
    that the scan of the directory listed when the run began. *)
Theorem X13_a_run_overwrites_no_listed_file oracle d d' :
  main oracle d d' →
  reports_file d' = reports_file d
  ∧ (∀ name, is_Some (downloads d !! name) → is_Some (downloads d' !! name))
  ∧ (∀ name, ends_with_pdf name = false →
             downloads d' !! name = downloads d !! name)
  ∧ (∀ i, i ∈ get_existing_downloads (downloads d) →
          downloads d' !! pdf_name i = downloads d !! pdf_name i).
Proof.
  intros Hmain. destruct Hmain as [d _|d df _ _|d df dir' errors' _ _ Hphase];
    [done|done|].
  apply download_phase_files in Hphase as [Hdom Hframe].
  cbn [report_phase reports_file downloads]. split_and!.
  - done.
  - intros name Hname. apply Hdom. by left.
  - intros name Hname. apply Hframe.
    intros (i & -> & _)%list_elem_of_fmap.
    by rewrite ends_with_pdf_name in Hname.
  - intros i Hi. apply Hframe.
    intros (j & Hj%pdf_name_inj & Hin)%list_elem_of_fmap. subst j.
    by apply r_index_build_queue in Hin as [_ Hin].
Qed.

Lemma X13_a_run_overwrites_no_listed_file_witness :
  let oracle := λ (_ : string) (_ : cell), Fetched "%PDF-1.4" in
  let row u := [("Pdf_URL", Text u); ("Report Html Address", NaN)] in
  let df := mkReports ["Pdf_URL"; "Report Html Address"]
              [("X2", row "http://host/x2.pdf");
               ("Y1", row "http://host/y1.pdf")] in
  let d := mkDisk (Stored df) {[ "X2.pdf" := "%PDF-1.3 old" ]}
             Missing Missing Missing in
  let q := build_queue (valid_reports df) (downloads d) in
  let st := run_in_turn oracle (r_rows q) (downloads d, []) in
  let d' := report_phase q (valid_reports df) st.2 st.1 d in
  reports_file d' = reports_file d
  ∧ (∀ name, is_Some (downloads d !! name) → is_Some (downloads d' !! name))
  ∧ (∀ name, ends_with_pdf name = false →
             downloads d' !! name = downloads d !! name)
  ∧ (∀ i, i ∈ get_existing_downloads (downloads d) →
          downloads d' !! pdf_name i = downloads d !! pdf_name i).
Proof.
  intros oracle row df d q st d'.
  apply (X13_a_run_overwrites_no_listed_file oracle d d').
  apply (main_in_turn oracle d df); [reflexivity|].
  split; [by left|by right; left].
Defined.

(** ** The status of a queued item after a run *)

(** The status rows of a queued identifier are those of this run. *)
Lemma status_rows_of_queued q e dir (f : file DataFrame) i :
  i ∈ r_index q →
  (∃ r, r ∈ records_of i (create_output_report q e dir f))
  ∧ ∀ r c, r ∈ records_of i (create_output_report q e dir f) →
           field c r = field c (output_row dir e i).
Proof.
  intros Hi.
  assert ((∃ r, r ∈ records_of i (new_output_df q e dir))
          ∧ ∀ r c, r ∈ records_of i (new_output_df q e dir) →
                   field c r = field c (output_row dir e i)) as Hnew.
  { split.
    - exists (output_row dir e i). apply list_elem_of_filter.
      split; [apply output_row_id|]. cbn [rows new_output_df].
      by apply list_elem_of_fmap_2.
    - intros r c [Hid Hr]%list_elem_of_filter. cbn [rows new_output_df] in Hr.
      apply list_elem_of_fmap in Hr as (j & -> & _).
      rewrite output_row_id in Hid. by simplify_eq. }
  destruct f as [| |prev]; [exact Hnew|exact Hnew|].
  destruct (records_of_merged_new q e dir prev i Hi) as (r' & Hr' & Hfield).
  rewrite Hr'. split.
  - exists r'. by left.
  - intros r c ->%list_elem_of_singleton. apply Hfield.
Qed.

Lemma output_row_status dir e i :
  field "Status" (output_row dir e i)
  = Text (if pdf_exists dir i then "Downloaded" else "Failed").
Proof. unfold output_row. by destruct (pdf_exists dir i). Qed.

(** X14. After a run of [main], the status table has a row for every queued
    identifier that the scan can list, and its label tells whether a worker
    of the run got as far as opening the file of that identifier: it is
    "Downloaded" if one did, and the identifier is then not queued by the
    next run; it is "Failed" if none did, and there is then no file of that
    identifier. *)
Theorem X14_label_tells_whether_the_file_was_opened oracle d d' df i :
  main oracle d d' →
  reports_file d = Stored df →
  url_columns_present df →
  i ∈ r_index (build_queue (valid_reports df) (downloads d)) →
  listable i = true →
  let q := build_queue (valid_reports df) (downloads d) in
  let opened :=
    ∃ item, item ∈ r_rows q ∧ item.1 = i
            ∧ opens_file (oracle item.1 (choose_url item.2)) = true in
  ∃ t,
    status_file d' = Stored t
    ∧ (∃ r, r ∈ records_of i t)
    ∧ (opened →
       (∀ r, r ∈ records_of i t → field "Status" r = Text "Downloaded")
       ∧ ∀ df', i ∉ r_index (build_queue df' (downloads d')))
    ∧ (¬ opened →
       (∀ r, r ∈ records_of i t → field "Status" r = Text "Failed")
       ∧ downloads d' !! pdf_name i = None).
Proof.
  intros Hmain Hdf Hurl Hi Hlist q opened.
  destruct (main_inv oracle d d' df Hmain Hdf Hurl)
    as (dir' & errors' & Hphase & ->).
  fold q in Hphase, Hi |- *.
  apply download_phase_files in Hphase as [Hdom _].
  assert (pdf_exists dir' i = true ↔ opened) as Hopened.
  { rewrite pdf_exists_true, Hdom. split.
    - intros [Hold|(item & Hin & Hname%pdf_name_inj & Hopen)].
      + apply r_index_build_queue in Hi as [_ Hi]. exfalso. apply Hi.
        apply elem_of_get_existing_downloads. by rewrite pdf_exists_true.
      + by exists item.
    - intros (item & Hin & <- & Hopen). right. by exists item. }
  cbn [report_phase status_file downloads].
  destruct (status_rows_of_queued q errors' dir' (status_file d) i Hi)
    as [Hrow Hfield].
  eexists. split; [done|]. split_and!.
  - exact Hrow.
  - intros Hop. apply Hopened in Hop. split.
    + intros r Hr. by rewrite (Hfield r "Status" Hr), output_row_status, Hop.
    + intros df'. by apply build_queue_prunes.
  - intros Hop. assert (pdf_exists dir' i = false) as Hno.
    { apply not_true_is_false. intros He. by apply Hop, Hopened. }
    split.
    + intros r Hr. by rewrite (Hfield r "Status" Hr), output_row_status, Hno.
    + apply eq_None_not_Some. rewrite <- pdf_exists_true. by rewrite Hno.
Qed.

Lemma X14_label_tells_whether_the_file_was_opened_witness :
  let oracle := λ (i : string) (_ : cell),
                  if bool_decide (i = "Y1") then Fetched "%PDF-1.4"
                  else RequestError ("no route to " +:+ i) in
  let row u := [("Pdf_URL", Text u); ("Report Html Address", NaN)] in
  let df := mkReports ["Pdf_URL"; "Report Html Address"]
              [("X2", row "http://host/x2.pdf");
               ("Y1", row "http://host/y1.pdf")] in
  let d := mkDisk (Stored df) ∅ Missing Missing Missing in
  let q := build_queue (valid_reports df) (downloads d) in
  let st := run_in_turn oracle (r_rows q) (downloads d, []) in
  let d' := report_phase q (valid_reports df) st.2 st.1 d in
  let opened :=
    ∃ item, item ∈ r_rows q ∧ item.1 = "Y1"
            ∧ opens_file (oracle item.1 (choose_url item.2)) = true in
  ∃ t,
    status_file d' = Stored t
    ∧ (∃ r, r ∈ records_of "Y1" t)
    ∧ (opened →
       (∀ r, r ∈ records_of "Y1" t → field "Status" r = Text "Downloaded")
       ∧ ∀ df', ("Y1" : string) ∉ r_index (build_queue df' (downloads d')))
    ∧ (¬ opened →
       (∀ r, r ∈ records_of "Y1" t → field "Status" r = Text "Failed")
       ∧ downloads d' !! pdf_name "Y1" = None).
Proof.
  intros oracle row df d q st d' opened.
  apply (X14_label_tells_whether_the_file_was_opened oracle d d' df "Y1").
  - apply (main_in_turn oracle d df); [reflexivity|].
    split; [by left|by right; left].
  - reflexivity.
  - split; [by left|by right; left].
  - apply (bool_decide_unpack _). by vm_compute.
  - reflexivity.
Defined.

(** ** The metadata row of a queued identifier *)

Lemma new_record_not_copied cols reports_data files report_id c :
  c ∉ [ID_COLUMN; "pdf_downloaded"] →
  ¬ (report_id ∈ r_index reports_data ∧ c ∈ r_columns reports_data
     ∧ c ∈ cols) →
  field c (new_record cols reports_data files report_id) = NaN.
Proof.
  intros Hc Hno. apply field_not_key. intros Hk. rewrite new_record_unfold in Hk.
  cbn zeta in Hk. case_bool_decide as Hin.
  - apply copy_loop_keys in Hk as [Hk|(? & ? & _)]; [|tauto].
    cbn in Hk. set_solver.
  - cbn in Hk. set_solver.
Qed.

(** The row [update_metadata] writes for a queued identifier. *)
Lemma update_metadata_row_of_queued q reports_data dir f M i :
  load_metadata f = Some M →
  i ∈ r_index q →
  ∃ T r,
    (update_metadata q reports_data dir f).2 = Some T
    ∧ filter (λ r, field ID_COLUMN r = Text i) (rows T) = [r]
    ∧ (∀ c, c ∈ columns M ∨ c ∈ [ID_COLUMN; "pdf_downloaded"] → c ∈ columns T)
    ∧ ∀ c, c ∈ columns T →
           field c r
           = field c (new_record (columns M) reports_data
                        (get_existing_downloads dir) i).
Proof.
  intros Hload Hi. unfold update_metadata. rewrite Hload. cbn [snd].
  set (recs := new_records (columns M) q reports_data dir).
  set (rec := new_record (columns M) reports_data (get_existing_downloads dir) i).
  assert (rec ∈ recs) as Hrec by (by apply list_elem_of_fmap_2).
  set (ND := DataFrame_of_records recs).
  assert (∀ c, c ∈ rec.*1 → c ∈ columns ND) as HcN.
  { intros c Hc. apply columns_of_records. by exists rec. }
  assert (ID_COLUMN ∈ columns ND) as HidN
    by apply HcN, new_record_fixed_keys.
  set (cols := extend_columns (columns M) (columns ND)).
  assert (∀ c, c ∈ columns ND → c ∈ cols) as Hcols.
  { intros c Hc. apply elem_of_extend_columns. by right. }
  unfold drop_duplicates, concat. cbn [columns rows]. fold cols.
  rewrite bool_decide_eq_true_2 by (by apply Hcols).
  exists (mkDataFrame cols
            (keep_last ID_COLUMN (reindex cols <$> (rows M ++ rows ND)))),
         (reindex cols (reindex (columns ND) rec)).
  split_and!.
  - done.
  - cbn [rows]. rewrite keep_last_filter, filter_fmap.
    rewrite (list_filter_iff _ (λ r, field ID_COLUMN r = Text i)).
    2:{ intros r. rewrite field_reindex_in; [done|by apply Hcols]. }
    rewrite filter_app, fmap_last, last_app.
    assert (last (filter (λ r, field ID_COLUMN r = Text i) (rows ND))
            = Some (reindex (columns ND) rec)) as ->; [|done].
    change (rows ND) with (reindex (columns ND) <$> recs).
    destruct (last _) as [x|] eqn:Hl.
    + apply last_Some_elem_of, list_elem_of_filter in Hl as [Hid Hx].
      apply list_elem_of_fmap in Hx as (r0 & -> & Hr0).
      apply list_elem_of_fmap in Hr0 as (j & -> & _).
      rewrite field_reindex_in, new_record_id in Hid by done.
      by simplify_eq.
    + apply last_None in Hl.
      assert (reindex (columns ND) rec
              ∈ filter (λ r, field ID_COLUMN r = Text i)
                  (reindex (columns ND) <$> recs)) as Hin.
      { apply list_elem_of_filter. split; [|by apply list_elem_of_fmap_2].
        rewrite field_reindex_in by done. apply new_record_id. }
      rewrite Hl in Hin. by apply not_elem_of_nil in Hin.
  - cbn [columns]. intros c [Hc|Hc].
    + apply elem_of_extend_columns. by left.
    + apply Hcols, HcN.
      destruct (new_record_fixed_keys (columns M) reports_data
                  (get_existing_downloads dir) i) as [H1 H2].
      fold rec in H1, H2. set_solver.
  - cbn [columns]. intros c Hc. rewrite field_reindex_in by done.
    rewrite field_reindex. case_bool_decide as HcND; [done|].
    symmetry. apply field_not_key. intros Hk. by apply HcND, HcN.
Qed.

(** X15. When no identifier occurs twice in the source table, so that
    [reports_data.loc[report_id, col]] is one cell, [update_metadata] leaves
    for every queued identifier exactly one row in the table it writes, and
    that row is made anew: the flag is "Yes" exactly when the scan of the
    download directory lists the identifier; under a column of the previous
    metadata table that the source table also has, the cell is the one of
    the source table; under every other previous column the cell is empty,
    whatever the previous row of the identifier held there. The table has
    the identifier column, the flag column and the previous columns, and no
    other. *)
Theorem X15_metadata_row_of_a_queued_identifier q reports_data dir f M i :
  NoDup (r_index reports_data) →
  load_metadata f = Some M →
  i ∈ r_index q →
  ∃ T r,
    (update_metadata q reports_data dir f).2 = Some T
    ∧ filter (λ r, field ID_COLUMN r = Text i) (rows T) = [r]
    ∧ (∀ c, c ∈ columns T ↔
            c = ID_COLUMN ∨ c = "pdf_downloaded" ∨ c ∈ columns M)
    ∧ field "pdf_downloaded" r
      = Text (if bool_decide (i ∈ get_existing_downloads dir)
              then "Yes" else "No")
    ∧ ∀ c, c ∈ columns M → c ∉ [ID_COLUMN; "pdf_downloaded"] →
           field c r
           = if bool_decide (i ∈ r_index reports_data
                             ∧ c ∈ r_columns reports_data)
             then loc reports_data i c else NaN.
Proof.
  intros _ Hload Hi.
  destruct (update_metadata_row_of_queued q reports_data dir f M i Hload Hi)
    as (T & r & HT & Hr & Hcols & Hfield).
  destruct (update_metadata_records q reports_data dir f M i Hload Hi)
    as (T' & _ & HT' & _ & _ & Hsub & _).
  rewrite HT in HT'. injection HT' as <-.
  exists T, r. split_and!; [done|done| | |].
  - intros c. split; [apply Hsub|].
    intros [->|[->|Hc]]; apply Hcols; set_solver.
  - rewrite Hfield by (apply Hcols; set_solver). apply new_record_flag.
  - intros c HcM Hc. rewrite Hfield by (apply Hcols; by left).
    case_bool_decide as Hcopy.
    + destruct Hcopy as [Hir Hcr].
      by apply new_record_copied.
    + apply new_record_not_copied; [done|tauto].
Qed.

Lemma X15_metadata_row_of_a_queued_identifier_witness :
  let M := mkDataFrame ["BRnum"; "Title"; "Checked by"; "pdf_downloaded"]
             [[("BRnum", Text "B"); ("Title", Text "Old title");
               ("Checked by", Text "N.N."); ("pdf_downloaded", Text "No")]] in
  let q := mkReports ["Pdf_URL"; "Title"]
             [("B", [("Pdf_URL", Text "http://b");
                     ("Title", Text "Report B")])] in
  let dir : gmap string string := {[ "B.pdf" := "%PDF" ]} in
  ∃ T r,
    (update_metadata q q dir (Stored M)).2 = Some T
    ∧ filter (λ r, field ID_COLUMN r = Text "B") (rows T) = [r]
    ∧ (∀ c, c ∈ columns T ↔
            c = ID_COLUMN ∨ c = "pdf_downloaded" ∨ c ∈ columns M)
    ∧ field "pdf_downloaded" r
      = Text (if bool_decide ("B" ∈ get_existing_downloads dir)
              then "Yes" else "No")
    ∧ ∀ c, c ∈ columns M → c ∉ [ID_COLUMN; "pdf_downloaded"] →
           field c r
           = if bool_decide ("B" ∈ r_index q ∧ c ∈ r_columns q)
             then loc q "B" c else NaN.
Proof.
  intros M q dir.
  apply (X15_metadata_row_of_a_queued_identifier q q dir (Stored M) M "B").
  - apply (bool_decide_unpack _). by vm_compute.
  - reflexivity.
  - apply (bool_decide_unpack _). by vm_compute.
Defined.

(** ** Previous status rows without an identifier *)

(** X16. [drop_duplicates] compares empty cells as equal: of the rows of the
    previous status table whose [Report ID] cell is empty, which are all its
    rows when the table has no such column, [create_output_report] keeps
    the last one only, laid out on the columns of the new table. *)
Theorem X16_rows_without_identifier_collapse q download_errors dir prev :
  let t := create_output_report q download_errors dir (Stored prev) in
  filter (λ r, field "Report ID" r = NaN) (rows t)
  = reindex (columns t)
      <$> option_list (last (filter (λ r, field "Report ID" r = NaN)
                                    (rows prev)))
  ∧ ("Report ID" ∉ columns prev → well_formed prev →
     ∀ r, r ∈ rows prev → field "Report ID" r = NaN).
Proof.
  intros t. split.
  - pose proof (report_id_in_columns q download_errors dir prev) as Hcol.
    fold t in Hcol. unfold t at 1. rewrite create_output_report_stored.
    cbn [rows]. rewrite keep_last_filter.
    assert (columns t = extend_columns (columns prev)
                          ["Report ID"; "Status"; "Error Message"]) as <-.
    { unfold t. by rewrite create_output_report_stored. }
    rewrite filter_fmap, fmap_last.
    rewrite (list_filter_iff _ (λ r, field "Report ID" r = NaN)).
    2:{ intros r. by rewrite field_reindex_in. }
    rewrite filter_app.
    rewrite (filter_none _ (rows (new_output_df q download_errors dir))).
    + rewrite app_nil_r. by destruct (last _).
    + intros r Hr Hid. cbn [rows new_output_df] in Hr.
      apply list_elem_of_fmap in Hr as (j & -> & _).
      by rewrite output_row_id in Hid.
  - intros Hcol Hwf r Hr. apply field_not_key. by rewrite (Hwf r Hr).
Qed.

(** ** The scan after the downloads *)

(** X17. What [get_existing_downloads] lists once [download_pdfs] has
    returned: the identifiers it listed before, and the identifiers of the
    queue, not empty and not beginning with a dot, for which a worker got as
    far as opening the file. *)
Theorem X17_scan_after_the_downloads C oracle queue dir errs dir' errs' i :
  download_pdfs C oracle queue dir errs dir' errs' →
  i ∈ get_existing_downloads dir' ↔
  i ∈ get_existing_downloads dir
  ∨ (listable i = true
     ∧ ∃ item, item ∈ queue ∧ item.1 = i
               ∧ opens_file (oracle item.1 (choose_url item.2)) = true).
Proof.
  intros [Hdom _]%download_pdfs_files.
  rewrite !elem_of_get_existing_downloads, !pdf_exists_true, Hdom. split.
  - intros [Hl [Hold|(item & Hin & Hname%pdf_name_inj & Hopen)]].
    + by left.
    + right. split; [done|]. by exists item.
  - intros [[Hl Hold]|[Hl (item & Hin & <- & Hopen)]].
    + split; [done|by left].
    + split; [done|]. right. by exists item.
Qed.

Lemma X17_scan_after_the_downloads_witness :
  let oracle := λ (i : string) (_ : cell),
                  if bool_decide (i = "B") then Fetched "%PDF-1.4"
                  else RequestError ("no route to " +:+ i) in
  let row := [("Pdf_URL", Text "http://host/x.pdf")] in
  let queue := [("A", row); ("B", row)] in
  let dir : gmap string string := {[ "Z.pdf" := "%PDF-1.3" ]} in
  let dir' := (run_in_turn oracle queue (dir, [])).1 in
  "B" ∈ get_existing_downloads dir' ↔
  "B" ∈ get_existing_downloads dir
  ∨ (listable "B" = true
     ∧ ∃ item, item ∈ queue ∧ item.1 = "B"
               ∧ opens_file (oracle item.1 (choose_url item.2)) = true).
Proof.
  intros oracle row queue dir dir'.
  apply (X17_scan_after_the_downloads MAX_CONCURRENT_THREADS oracle queue dir
           [] dir' (run_in_turn oracle queue (dir, [])).2 "B").
  apply download_pdfs_in_turn. unfold MAX_CONCURRENT_THREADS. lia.
Defined.
